(** * PII detection and redaction engine of [detector_full_dhananjay_garg.py]

    A shallow embedding of the detector: Python text operations, the [re]
    patterns of [FlixkartPIIDetector] with a backtracking matcher, the
    detection and masking methods, the payload repair and the raw-text
    fallback, followed by the properties of the specification.

    Text is a Rocq [string], read as a sequence of code points below 256;
    the character classes are the ones Python's Unicode tables give on that
    range. *)

From Stdlib Require Import String Ascii List Bool Arith NArith ZArith Lia.
From Stdlib Require Import DecimalString.
Import ListNotations.

Local Open Scope string_scope.
Local Open Scope nat_scope.

(** ** Character classes *)

Module Chars.

Definition code (c : ascii) : N := N_of_ascii c.

Definition in_range (lo hi : N) (c : ascii) : bool :=
  (lo <=? code c)%N && (code c <=? hi)%N.

Definition is_char (a c : ascii) : bool := Ascii.eqb a c.

(** [str.isspace]: tab to carriage return, the four separators 0x1c-0x1f,
    space, NEL and the no-break space. *)
Definition is_space (c : ascii) : bool :=
  in_range 9 13 c || in_range 28 31 c || (code c =? 32)%N
  || (code c =? 133)%N || (code c =? 160)%N.

(** [\d]: the decimal digits. *)
Definition is_digit (c : ascii) : bool := in_range 48 57 c.

Definition is_upper (c : ascii) : bool := in_range 65 90 c.
Definition is_lower (c : ascii) : bool := in_range 97 122 c.
Definition is_alpha (c : ascii) : bool := is_upper c || is_lower c.

(** Letters and numeric characters of the upper half of the range, which
    [str.isalnum] accepts. *)
Definition is_high_alnum (c : ascii) : bool :=
  (code c =? 170)%N || (code c =? 178)%N || (code c =? 179)%N
  || (code c =? 181)%N || (code c =? 185)%N || (code c =? 186)%N
  || in_range 188 190 c || in_range 192 214 c || in_range 216 246 c
  || in_range 248 255 c.

(** [\w]: alphanumeric or underscore. *)
Definition is_word (c : ascii) : bool :=
  is_alpha c || is_digit c || is_char "_" c || is_high_alnum c.

End Chars.
Import Chars.

(** ** Python [str] operations *)

Module Str.

Fixpoint take (n : nat) (s : string) : string :=
  match n, s with
  | S n', String a s' => String a (take n' s')
  | _, _ => ""
  end.

Fixpoint drop (n : nat) (s : string) : string :=
  match n, s with
  | S n', String _ s' => drop n' s'
  | _, _ => s
  end.

(** [s[-n:]] for a positive [n]. *)
Definition last_n (n : nat) (s : string) : string :=
  drop (String.length s - n) s.

(** [c * n]; a negative count gives the empty text, as the truncated
    subtraction of [nat] does. *)
Fixpoint replicate (n : nat) (c : ascii) : string :=
  match n with
  | O => ""
  | S n' => String c (replicate n' c)
  end.

Fixpoint lstrip_by (p : ascii -> bool) (s : string) : string :=
  match s with
  | String a s' => if p a then lstrip_by p s' else s
  | "" => ""
  end.

Fixpoint rstrip_by (p : ascii -> bool) (s : string) : string :=
  match s with
  | "" => ""
  | String a s' =>
      match rstrip_by p s' with
      | "" => if p a then "" else String a ""
      | t => String a t
      end
  end.

(** [s.strip()] *)
Definition strip (s : string) : string := rstrip_by is_space (lstrip_by is_space s).

(** [s.split()]: the maximal runs of non-whitespace characters. *)
Fixpoint split_ws (s : string) : list string :=
  match s with
  | "" => []
  | String a s' =>
      if is_space a then split_ws s'
      else match s' with
           | "" => [String a ""]
           | String b _ =>
               if is_space b then String a "" :: split_ws s'
               else match split_ws s' with
                    | w :: ws => String a w :: ws
                    | [] => [String a ""]
                    end
           end
  end.

(** [c in s] for a one-character [c]. *)
Fixpoint mem_char (c : ascii) (s : string) : bool :=
  match s with
  | "" => false
  | String a s' => Ascii.eqb a c || mem_char c s'
  end.

(** [s.split(c, 1)] when [c] occurs in [s]: the text before the first
    occurrence and the text after it. *)
Fixpoint split_first (c : ascii) (s : string) : string * string :=
  match s with
  | "" => ("", "")
  | String a s' =>
      if Ascii.eqb a c then ("", s')
      else let (u, d) := split_first c s' in (String a u, d)
  end.

Fixpoint starts_with (p s : string) : bool :=
  match p, s with
  | "", _ => true
  | String a p', String b s' => Ascii.eqb a b && starts_with p' s'
  | _, _ => false
  end.

(** [s.replace(old, new)] for a non-empty [old]: the occurrences are replaced
    from the left, without overlap.  [skip] counts the characters of an
    occurrence still to be passed over. *)
Fixpoint replace_from (old new s : string) (skip : nat) : string :=
  match s with
  | "" => ""
  | String a s' =>
      match skip with
      | S k => replace_from old new s' k
      | O =>
          if starts_with old s
          then new ++ replace_from old new s' (String.length old - 1)
          else String a (replace_from old new s' 0)
      end
  end.

(** With an empty [old] Python puts [new] before every character and at the
    end. *)
Fixpoint intersperse (new s : string) : string :=
  match s with
  | "" => new
  | String a s' => new ++ String a (intersperse new s')
  end.

Definition replace (old new s : string) : string :=
  match old with
  | "" => intersperse new s
  | _ => replace_from old new s 0
  end.

(** Every character of [s] satisfies [p]. *)
Fixpoint all_chars (p : ascii -> bool) (s : string) : bool :=
  match s with
  | "" => true
  | String a s' => p a && all_chars p s'
  end.

(** [sep.join(words)] *)
Definition join (sep : string) (words : list string) : string :=
  String.concat sep words.

End Str.
Import Str.

(** ** Decoded values *)

(** What [json.loads] can put in a record.  Floats and non-empty containers
    only reach the detector through [str()] and their truth value, so they
    carry their text. *)
Inductive value : Type :=
| VNone
| VBool (b : bool)
| VInt (z : Z)
| VStr (s : string)
| VFloatZero (negative : bool)
| VFloat (text : string)
| VEmptyList
| VEmptyDict
| VContainer (text : string).

(** [bool(value)] *)
Definition truthy (v : value) : bool :=
  match v with
  | VNone => false
  | VBool b => b
  | VInt z => negb (z =? 0)%Z
  | VStr s => negb (s =? "")%string
  | VFloatZero _ => false
  | VFloat _ => true
  | VEmptyList => false
  | VEmptyDict => false
  | VContainer _ => true
  end.

(** [str(value)] *)
Definition py_str (v : value) : string :=
  match v with
  | VNone => "None"
  | VBool true => "True"
  | VBool false => "False"
  | VInt z => NilZero.string_of_int (Z.to_int z)
  | VStr s => s
  | VFloatZero false => "0.0"
  | VFloatZero true => "-0.0"
  | VFloat t => t
  | VEmptyList => "[]"
  | VEmptyDict => "{}"
  | VContainer t => t
  end.

(** The exceptions a method can end with. *)
Inductive exn : Type := AttributeError.

Inductive result (A : Type) : Type :=
| Ok (a : A)
| Raise (e : exn).
Arguments Ok {A} a.
Arguments Raise {A} e.

Definition bind {A B : Type} (r : result A) (f : A -> result B) : result B :=
  match r with
  | Ok a => f a
  | Raise e => Raise e
  end.

Notation "x <- r ;; k" := (bind r (fun x => k))
  (at level 61, r at next level, right associativity).


(** ** The [re] module *)

Module Re.

(** The patterns of the program only repeat single-character classes, so the
    syntax has a repetition of a class rather than of a pattern. *)
Inductive regex : Type :=
| RClass (c : ascii -> bool)
| RRep (c : ascii -> bool) (lo : nat) (hi : option nat)
| RWordB
| RBol
| REol
| RSeq (r1 r2 : regex)
| RAlt (r1 r2 : regex)
| RGroup (n : nat) (r : regex).

(** Spans of the groups that have matched, the latest first. *)
Definition caps : Type := list (nat * (nat * nat)).

(** A matcher runs at a position, knowing the character before it and the
    text from it on, and passes what it leaves to its continuation; [None]
    makes the caller backtrack. *)
Definition cont : Type := nat -> option ascii -> string -> caps -> option (nat * caps).

Definition dec_hi (hi : option nat) : option nat :=
  match hi with
  | Some h => Some (pred h)
  | None => None
  end.

Definition hi_open (hi : option nat) : bool :=
  match hi with
  | Some O => false
  | _ => true
  end.

(** Leaving a repetition is allowed once the lower bound is used up. *)
Definition rep_stop (lo : nat) (k : cont) : cont :=
  fun p pv s g =>
    match lo with
    | O => k p pv s g
    | S _ => None
    end.

(** Greedy repetition: take a character while the class and the upper bound
    allow it, and give characters back one at a time, down to [lo]. *)
Fixpoint rep (c : ascii -> bool) (lo : nat) (hi : option nat) (k : cont)
    (p : nat) (pv : option ascii) (s : string) (g : caps) : option (nat * caps) :=
  match s with
  | String a s' =>
      if hi_open hi && c a then
        match rep c (pred lo) (dec_hi hi) k (S p) (Some a) s' g with
        | Some r => Some r
        | None => rep_stop lo k p pv s g
        end
      else rep_stop lo k p pv s g
  | "" => rep_stop lo k p pv s g
  end.

Definition word_before (pv : option ascii) : bool :=
  match pv with
  | Some a => is_word a
  | None => false
  end.

Definition word_after (s : string) : bool :=
  match s with
  | String a _ => is_word a
  | "" => false
  end.

Definition newline : ascii := "010"%char.

Fixpoint m (r : regex) (k : cont) (p : nat) (pv : option ascii) (s : string)
    (g : caps) : option (nat * caps) :=
  match r with
  | RClass c =>
      match s with
      | String a s' => if c a then k (S p) (Some a) s' g else None
      | "" => None
      end
  | RRep c lo hi => rep c lo hi k p pv s g
  | RWordB => if xorb (word_before pv) (word_after s) then k p pv s g else None
  | RBol => if p =? 0 then k p pv s g else None
  | REol =>
      match s with
      | "" => k p pv s g
      | String a "" => if Ascii.eqb a newline then k p pv s g else None
      | _ => None
      end
  | RSeq r1 r2 => m r1 (fun p' pv' s' g' => m r2 k p' pv' s' g') p pv s g
  | RAlt r1 r2 =>
      match m r1 k p pv s g with
      | Some x => Some x
      | None => m r2 k p pv s g
      end
  | RGroup n r1 => m r1 (fun p' pv' s' g' => k p' pv' s' ((n, (p, p')) :: g')) p pv s g
  end.

Definition accept : cont := fun p _ _ g => Some (p, g).

(** One attempt at position [p]: the end of the match and its groups. *)
Definition match_here (r : regex) (p : nat) (pv : option ascii) (s : string)
  : option (nat * caps) :=
  m r accept p pv s [].

(** [pattern.match(s)]: an attempt at the start of the text only. *)
Definition re_match (r : regex) (s : string) : option (nat * caps) :=
  match_here r 0 None s.

Definition matches (r : regex) (s : string) : bool :=
  match re_match r s with
  | Some _ => true
  | None => false
  end.

(** [pattern.search(s)]: the first position, from the left, with a match. *)
Fixpoint search_from (r : regex) (p : nat) (pv : option ascii) (s : string)
  : option (nat * nat * caps) :=
  match match_here r p pv s with
  | Some (e, g) => Some (p, e, g)
  | None =>
      match s with
      | "" => None
      | String a s' => search_from r (S p) (Some a) s'
      end
  end.

Definition search (r : regex) (s : string) : bool :=
  match search_from r 0 None s with
  | Some _ => true
  | None => false
  end.

(** [pattern.finditer(s)], as the list of [match.group()]: the matches from
    the left, without overlap.  [skip] counts the characters of the last
    match still to be passed over.  No pattern of the program matches the
    empty text; after such a match the scan moves on by one character. *)
Fixpoint finditer_from (r : regex) (p : nat) (pv : option ascii) (s : string)
    (skip : nat) : list string :=
  match skip with
  | S k =>
      match s with
      | "" => []
      | String a s' => finditer_from r (S p) (Some a) s' k
      end
  | O =>
      match match_here r p pv s with
      | Some (e, _) =>
          take (e - p) s ::
          match s with
          | "" => []
          | String a s' => finditer_from r (S p) (Some a) s' (e - p - 1)
          end
      | None =>
          match s with
          | "" => []
          | String a s' => finditer_from r (S p) (Some a) s' 0
          end
      end
  end.

Definition finditer (r : regex) (s : string) : list string :=
  finditer_from r 0 None s 0.

(** A replacement template: literal text and group references. *)
Inductive piece : Type :=
| Lit (t : string)
| Ref (n : nat).

Fixpoint group_span (n : nat) (g : caps) : option (nat * nat) :=
  match g with
  | [] => None
  | (i, sp) :: g' => if i =? n then Some sp else group_span n g'
  end.

(** The text of a group, cut from the text that starts at position [p]; a
    group that did not take part gives the empty text. *)
Definition group_text (n : nat) (g : caps) (p : nat) (s : string) : string :=
  match group_span n g with
  | Some (b, e) => take (e - b) (drop (b - p) s)
  | None => ""
  end.

Fixpoint expand (t : list piece) (g : caps) (p : nat) (s : string) : string :=
  match t with
  | [] => ""
  | Lit x :: t' => x ++ expand t' g p s
  | Ref n :: t' => group_text n g p s ++ expand t' g p s
  end.

(** [pattern.sub(template, s)] *)
Fixpoint sub_from (r : regex) (t : list piece) (p : nat) (pv : option ascii)
    (s : string) (skip : nat) : string :=
  match skip with
  | S k =>
      match s with
      | "" => ""
      | String a s' => sub_from r t (S p) (Some a) s' k
      end
  | O =>
      match match_here r p pv s with
      | Some (e, g) =>
          expand t g p s ++
          match s with
          | "" => ""
          | String a s' =>
              if e =? p then String a (sub_from r t (S p) (Some a) s' 0)
              else sub_from r t (S p) (Some a) s' (e - p - 1)
          end
      | None =>
          match s with
          | "" => ""
          | String a s' => String a (sub_from r t (S p) (Some a) s' 0)
          end
      end
  end.

Definition sub (r : regex) (t : list piece) (s : string) : string :=
  sub_from r t 0 None s 0.

(** [c{n}] and [c+] *)
Definition times (c : ascii -> bool) (n : nat) : regex := RRep c n (Some n).
Definition plus (c : ascii -> bool) : regex := RRep c 1 None.
Definition star (c : ascii -> bool) : regex := RRep c 0 None.
Definition opt (c : ascii -> bool) : regex := RRep c 0 (Some 1).
Definition at_least (c : ascii -> bool) (n : nat) : regex := RRep c n None.

Fixpoint seq (rs : list regex) : regex :=
  match rs with
  | [] => RRep (fun _ => false) 0 (Some 0)
  | [r] => r
  | r :: rs' => RSeq r (seq rs')
  end.

End Re.
Import Re.

(** ** The detector *)

Definition dquote : ascii := "034"%char.

(** [\b\d{10}\b] *)
Definition phone_pattern : regex :=
  seq [RWordB; times is_digit 10; RWordB].

Definition space_or_hyphen (c : ascii) : bool := is_space c || is_char "-" c.

(** [\b\d{4}[\s-]?\d{4}[\s-]?\d{4}\b|\b\d{12}\b] *)
Definition aadhar_pattern : regex :=
  RAlt (seq [RWordB; times is_digit 4; opt space_or_hyphen; times is_digit 4;
             opt space_or_hyphen; times is_digit 4; RWordB])
       (seq [RWordB; times is_digit 12; RWordB]).

(** [\b[A-Z]\d{7}\b] *)
Definition passport_pattern : regex :=
  seq [RWordB; RClass is_upper; times is_digit 7; RWordB].

Definition word_or_dot (c : ascii) : bool := is_word c || is_char "." c.

(** [\b[\w.]+@[\w.]+\b|\b\d{10}@[a-zA-Z]+\b] *)
Definition upi_pattern : regex :=
  RAlt (seq [RWordB; plus word_or_dot; RClass (is_char "@"); plus word_or_dot; RWordB])
       (seq [RWordB; times is_digit 10; RClass (is_char "@"); plus is_alpha; RWordB]).

(** [[A-Za-z0-9._%+-]] *)
Definition email_local (c : ascii) : bool :=
  is_alpha c || is_digit c || is_char "." c || is_char "_" c || is_char "%" c
  || is_char "+" c || is_char "-" c.

(** [[A-Za-z0-9.-]] *)
Definition email_domain (c : ascii) : bool :=
  is_alpha c || is_digit c || is_char "." c || is_char "-" c.

(** [[A-Z|a-z]]: the bar is a member of the class. *)
Definition email_tld (c : ascii) : bool :=
  is_upper c || is_char "|" c || is_lower c.

(** [\b[A-Za-z0-9._%+-]+@[A-Za-z0-9.-]+\.[A-Z|a-z]{2,}\b] *)
Definition email_pattern : regex :=
  seq [RWordB; plus email_local; RClass (is_char "@"); plus email_domain;
       RClass (is_char "."); at_least email_tld 2; RWordB].

Definition name_fields : list string := ["name"; "first_name"; "last_name"].

Definition combinatorial_fields : list string :=
  ["name"; "first_name"; "last_name"; "email"; "address"; "device_id"; "ip_address"].

(** [field in fields] *)
Definition field_in (field : string) (fields : list string) : bool :=
  existsb (String.eqb field) fields.

Definition redacted_token : string := "[REDACTED]".


(** A decoded record and the masked-field mapping are Python dicts: keys in
    insertion order, an assignment to a present key replaces its value in
    place. *)
Module Dict.

Definition dict (V : Type) : Type := list (string * V).

Fixpoint get {V : Type} (k : string) (d : dict V) : option V :=
  match d with
  | [] => None
  | (k', v) :: d' => if String.eqb k' k then Some v else get k d'
  end.

(** [k in d] *)
Definition mem {V : Type} (k : string) (d : dict V) : bool :=
  match get k d with
  | Some _ => true
  | None => false
  end.

(** [d[k] = v] *)
Fixpoint set {V : Type} (k : string) (v : V) (d : dict V) : dict V :=
  match d with
  | [] => [(k, v)]
  | (k', v') :: d' =>
      if String.eqb k' k then (k', v) :: d' else (k', v') :: set k v d'
  end.

Definition keys {V : Type} (d : dict V) : list string := map fst d.

End Dict.

Definition record : Type := Dict.dict value.

Definition is_standalone_pii (field : string) (value : value) : bool :=
  if negb (truthy value) || (String.length (strip (py_str value)) <? 3) then false
  else
    let value_str := strip (py_str value) in
    if (field =? "phone")%string || matches phone_pattern value_str then true
    else if (field =? "aadhar")%string || matches aadhar_pattern value_str then true
    else if (field =? "passport")%string || matches passport_pattern value_str then true
    else if (field =? "upi_id")%string || matches upi_pattern value_str then true
    else false.

Definition alpha_or_dot (c : ascii) : bool := is_alpha c || is_char "." c.

(** [^[A-Za-z.]+$] *)
Definition name_word_pattern : regex := seq [RBol; plus alpha_or_dot; REol].

(** Only a [str] has [strip]; any other true value raises. *)
Definition is_valid_name (name_str : value) : result bool :=
  if negb (truthy name_str) then Ok false
  else
    match name_str with
    | VStr s =>
        if String.length (strip s) <? 2 then Ok false
        else
          let words := split_ws (strip s) in
          if length words <? 2 then Ok false
          else Ok (forallb (matches name_word_pattern) words)
    | _ => Raise AttributeError
    end.

Definition is_valid_email (email_str : value) : bool :=
  matches email_pattern (py_str email_str).

Definition is_valid_address (addr_str : value) : bool :=
  if negb (truthy addr_str) || (String.length (py_str addr_str) <? 10) then false
  else
    let addr := py_str addr_str in
    mem_char "," addr
    && (search (RClass is_digit) addr || (4 <=? length (split_ws addr))).

(** The running loop of a method over [data.items()]. *)
Fixpoint for_items {V S : Type} (body : S -> string -> V -> result S)
    (st : S) (d : Dict.dict V) : result S :=
  match d with
  | [] => Ok st
  | (field, v) :: d' => st' <- body st field v ;; for_items body st' d'
  end.

(** [field in ['name'] and self.is_valid_name(value)] *)
Definition name_check (field : string) (value : value) : result bool :=
  if field_in field ["name"] then is_valid_name value else Ok false.

Definition combinatorial_step (present : list string) (field : string)
    (value : value) : result (list string) :=
  if negb (truthy value) then Ok present
  else
    is_name <- name_check field value ;;
    if is_name then Ok (present ++ ["name"])%list
    else if field_in field ["first_name"; "last_name"]
            && (2 <=? String.length (strip (py_str value)))
    then (if negb (field_in "name_parts" present)
          then Ok (present ++ ["name_parts"])%list else Ok present)
    else if (field =? "email")%string && is_valid_email value
    then Ok (present ++ ["email"])%list
    else if (field =? "address")%string && is_valid_address value
    then Ok (present ++ ["address"])%list
    else if field_in field ["device_id"; "ip_address"]
            && (5 <=? String.length (strip (py_str value)))
    then Ok (present ++ ["device_info"])%list
    else Ok present.

Definition pii_fields_present (data : record) : result (list string) :=
  for_items combinatorial_step [] data.

Definition has_combinatorial_pii (data : record) : result bool :=
  present <- pii_fields_present data ;;
  Ok (2 <=? length present).

(** [f"{word[0]}{'X' * (len(word) - 1)}" if len(word) > 1 else 'X'] *)
Definition mask_word (word : string) : string :=
  if 1 <? String.length word
  then take 1 word ++ replicate (String.length word - 1) "X"
  else "X".

Definition non_digit (c : ascii) : bool := negb (is_digit c).

Definition mask_value (field : string) (value : value) : string :=
  let value_str := strip (py_str value) in
  if (field =? "phone")%string || matches phone_pattern value_str then
    if String.length value_str =? 10
    then take 2 value_str ++ "XXXXXX" ++ last_n 2 value_str
    else take 2 value_str ++ replicate (String.length value_str - 4) "X"
         ++ last_n 2 value_str
  else if (field =? "aadhar")%string then
    let clean_num := sub (RClass non_digit) [] value_str in
    if String.length clean_num =? 12
    then take 2 clean_num ++ "XXXXXXXX" ++ last_n 2 clean_num
    else redacted_token
  else if field_in field ["name"; "first_name"; "last_name"] then
    join " " (map mask_word (split_ws value_str))
  else if (field =? "email")%string then
    if mem_char "@" value_str then
      let (user, domain) := split_first "@" value_str in
      mask_word user ++ "@" ++ domain
    else redacted_token
  else redacted_token.

(** The first loop of [detect_pii_in_record]. *)
Definition standalone_step (st : bool * Dict.dict string) (field : string)
    (value : value) : bool * Dict.dict string :=
  if is_standalone_pii field value
  then (true, Dict.set field (mask_value field value) (snd st))
  else st.

Definition standalone_pass (data : record) : bool * Dict.dict string :=
  fold_left (fun st fv => standalone_step st (fst fv) (snd fv)) data (false, []).

(** The loop under [if self.has_combinatorial_pii(data)]. *)
Definition combinatorial_mask_step (pii_fields : Dict.dict string)
    (field : string) (value : value) : result (Dict.dict string) :=
  if field_in field combinatorial_fields && truthy value
     && negb (Dict.mem field pii_fields)
  then
    is_name <- name_check field value ;;
    if is_name then Ok (Dict.set field (mask_value field value) pii_fields)
    else if field_in field ["first_name"; "last_name"]
            && (2 <=? String.length (strip (py_str value)))
    then Ok (Dict.set field (mask_value field value) pii_fields)
    else if (field =? "email")%string && is_valid_email value
    then Ok (Dict.set field (mask_value field value) pii_fields)
    else if (field =? "address")%string && is_valid_address value
    then Ok (Dict.set field (mask_value field value) pii_fields)
    else if field_in field ["device_id"; "ip_address"]
    then Ok (Dict.set field redacted_token pii_fields)
    else Ok pii_fields
  else Ok pii_fields.

Definition detect_pii_in_record (data : record) : result (bool * Dict.dict string) :=
  let (has_standalone, pii_fields) := standalone_pass data in
  has_combinatorial <- has_combinatorial_pii data ;;
  pii_fields <- (if has_combinatorial
                 then for_items combinatorial_mask_step pii_fields data
                 else Ok pii_fields) ;;
  Ok (has_standalone || has_combinatorial, pii_fields).


(** ** Malformed-payload repair *)

Definition ident_start (c : ascii) : bool := is_alpha c || is_char "_" c.
Definition ident_char (c : ascii) : bool := is_alpha c || is_digit c || is_char "_" c.
Definition comma_or_brace (c : ascii) : bool := is_char "," c || is_char "}" c.

(** The first pattern of the repair: a colon, optional whitespace, group 1
    an identifier (a letter or underscore, then letters, digits and
    underscores), optional whitespace, group 2 a comma or closing brace. *)
Definition bare_word_pattern : regex :=
  seq [RClass (is_char ":"); star is_space;
       RGroup 1 (RSeq (RClass ident_start) (star ident_char));
       star is_space; RGroup 2 (RClass comma_or_brace)].

(** The second pattern: as the first, with group 1 a date [\d{4}-\d{2}-\d{2}]. *)
Definition bare_date_pattern : regex :=
  seq [RClass (is_char ":"); star is_space;
       RGroup 1 (seq [times is_digit 4; RClass (is_char "-"); times is_digit 2;
                      RClass (is_char "-"); times is_digit 2]);
       star is_space; RGroup 2 (RClass comma_or_brace)].

(** The template [: "\1"\2] *)
Definition quoted_value : list piece :=
  [Lit (": " ++ String dquote ""); Ref 1; Lit (String dquote ""); Ref 2].

Definition fix_malformed_json (json_str : string) : string :=
  let fixed := rstrip_by (is_char dquote) (strip json_str) in
  let fixed := sub bare_word_pattern quoted_value fixed in
  let fixed := sub bare_date_pattern quoted_value fixed in
  fixed.

(** ** Raw-text fallback *)

Definition detect_pii_in_raw_string (raw_str : string) : bool :=
  if search phone_pattern raw_str then true
  else if search aadhar_pattern raw_str then true
  else if search passport_pattern raw_str then true
  else if search upi_pattern raw_str then true
  else if search email_pattern raw_str then true
  else false.

Definition redact_phone (redacted phone : string) : string :=
  let masked :=
    if String.length phone =? 10
    then take 2 phone ++ "XXXXXX" ++ last_n 2 phone
    else take 2 phone ++ replicate (String.length phone - 4) "X" ++ last_n 2 phone in
  replace phone masked redacted.

Definition redact_aadhar (redacted aadhar : string) : string :=
  let clean_num := sub (RClass non_digit) [] aadhar in
  if String.length clean_num =? 12
  then replace aadhar (take 2 clean_num ++ "XXXXXXXX" ++ last_n 2 clean_num) redacted
  else redacted.

Definition redact_pii_in_raw_string (raw_str : string) : string :=
  let redacted := raw_str in
  let redacted := fold_left redact_phone (finditer phone_pattern raw_str) redacted in
  let redacted := fold_left redact_aadhar (finditer aadhar_pattern raw_str) redacted in
  let redacted := sub passport_pattern [Lit redacted_token] redacted in
  let redacted := sub upi_pattern [Lit redacted_token] redacted in
  let redacted := sub email_pattern [Lit redacted_token] redacted in
  redacted.

(** ** Redaction of a decoded record in [process_csv_file] *)

(** The loop over [pii_fields.items()] on the copy of [data]. *)
Definition redact_step (redacted_data : record) (fm : string * string) : record :=
  if Dict.mem (fst fm) redacted_data
  then Dict.set (fst fm) (VStr (snd fm)) redacted_data
  else redacted_data.

Definition redact_record (data : record) (pii_fields : Dict.dict string) : record :=
  fold_left redact_step pii_fields data.

(** What a row writes as its payload: the record handed to [json.dumps], the
    input text as it came, or the text of an empty object. *)
Inductive payload : Type :=
| Dumped (redacted_data : record)
| Original
| EmptyObject.

(** The row of a decoded [data]: payload and [is_pii]. *)
Definition process_decoded (data : record) : payload * bool :=
  match detect_pii_in_record data with
  | Ok (true, pii_fields) => (Dumped (redact_record data pii_fields), true)
  | Ok (false, _) => (Original, false)
  | Raise _ => (EmptyObject, false)
  end.


(** ** Structured decoding

    [json.loads] of the standard library, strict mode, on the text model:
    the retry after the repair goes through it.  An escape [\uXXXX] is decoded
    when its code point is below 256 and is refused otherwise, as the text
    model has no character for it. *)

Module Json.

#[warnings="-register-all"]
Inductive json : Type :=
| JNull
| JBool (b : bool)
| JNumber (literal : string)
| JString (s : string)
| JArray (items : list json)
| JObject (members : Dict.dict json).

Definition is_ws (c : ascii) : bool :=
  is_char " " c || is_char "009" c || is_char "010" c || is_char "013" c.

Definition skip_ws (s : string) : string := lstrip_by is_ws s.

Definition hex_digit (c : ascii) : option N :=
  if is_digit c then Some (code c - 48)%N
  else if in_range 97 102 c then Some (code c - 87)%N
  else if in_range 65 70 c then Some (code c - 55)%N
  else None.

Definition hex4 (a b c d : ascii) : option N :=
  match hex_digit a, hex_digit b, hex_digit c, hex_digit d with
  | Some x, Some y, Some z, Some w => Some (((x * 16 + y) * 16 + z) * 16 + w)%N
  | _, _, _, _ => None
  end.

Definition escape (e : ascii) : option ascii :=
  if is_char dquote e then Some dquote
  else if is_char "\" e then Some "\"%char
  else if is_char "/" e then Some "/"%char
  else if is_char "b" e then Some "008"%char
  else if is_char "f" e then Some "012"%char
  else if is_char "n" e then Some "010"%char
  else if is_char "r" e then Some "013"%char
  else if is_char "t" e then Some "009"%char
  else None.

(** The text of a string after its opening quote, and what follows the
    closing quote. *)
Fixpoint string_body (s : string) : option (string * string) :=
  match s with
  | "" => None
  | String c s' =>
      if is_char dquote c then Some ("", s')
      else if is_char "\" c then
        match s' with
        | String "u" (String h1 (String h2 (String h3 (String h4 s'')))) =>
            match hex4 h1 h2 h3 h4 with
            | Some n =>
                if (n <? 256)%N then
                  match string_body s'' with
                  | Some (t, r) => Some (String (ascii_of_N n) t, r)
                  | None => None
                  end
                else None
            | None => None
            end
        | String e s'' =>
            match escape e, string_body s'' with
            | Some x, Some (t, r) => Some (String x t, r)
            | _, _ => None
            end
        | "" => None
        end
      else if (code c <? 32)%N then None
      else
        match string_body s' with
        | Some (t, r) => Some (String c t, r)
        | None => None
        end
  end.

Definition nothing : regex := RRep (fun _ => false) 0 (Some 0).
Definition maybe (r : regex) : regex := RAlt r nothing.

(** A number: an optional minus, [0] or a non-zero digit with further
    digits, an optional fraction [\.\d+] and an optional exponent
    [[eE][-+]?\d+]. *)
Definition number_pattern : regex :=
  seq [opt (is_char "-");
       RAlt (RClass (is_char "0")) (RSeq (RClass (in_range 49 57)) (star is_digit));
       maybe (RSeq (RClass (is_char ".")) (plus is_digit));
       maybe (seq [RClass (fun c => is_char "e" c || is_char "E" c);
                   opt (fun c => is_char "-" c || is_char "+" c);
                   plus is_digit])].

Definition literal (s : string) : option (json * string) :=
  if starts_with "null" s then Some (JNull, drop 4 s)
  else if starts_with "true" s then Some (JBool true, drop 4 s)
  else if starts_with "false" s then Some (JBool false, drop 5 s)
  else if starts_with "NaN" s then Some (JNumber "NaN", drop 3 s)
  else if starts_with "Infinity" s then Some (JNumber "Infinity", drop 8 s)
  else if starts_with "-Infinity" s then Some (JNumber "-Infinity", drop 9 s)
  else
    match re_match number_pattern s with
    | Some (e, _) => Some (JNumber (take e s), drop e s)
    | None => None
    end.

(** [fuel] bounds the depth of the calls; [loads] gives the length of the
    text plus one. *)
Fixpoint value_at (fuel : nat) (s : string) : option (json * string) :=
  match fuel with
  | O => None
  | S f =>
      match s with
      | "" => None
      | String c s' =>
          if is_char dquote c then
            match string_body s' with
            | Some (t, r) => Some (JString t, r)
            | None => None
            end
          else if is_char "{" c then
            match skip_ws s' with
            | String c' r =>
                if is_char "}" c' then Some (JObject [], r)
                else
                  match members_at f (skip_ws s') [] with
                  | Some (d, r') => Some (JObject d, r')
                  | None => None
                  end
            | "" => None
            end
          else if is_char "[" c then
            match skip_ws s' with
            | String c' r =>
                if is_char "]" c' then Some (JArray [], r)
                else
                  match items_at f (skip_ws s') [] with
                  | Some (l, r') => Some (JArray l, r')
                  | None => None
                  end
            | "" => None
            end
          else literal s
      end
  end

with members_at (fuel : nat) (s : string) (acc : Dict.dict json)
  : option (Dict.dict json * string) :=
  match fuel with
  | O => None
  | S f =>
      match s with
      | String c s' =>
          if is_char dquote c then
            match string_body s' with
            | Some (key, r) =>
                match skip_ws r with
                | String c1 r1 =>
                    if is_char ":" c1 then
                      match value_at f (skip_ws r1) with
                      | Some (v, r2) =>
                          let acc' := Dict.set key v acc in
                          match skip_ws r2 with
                          | String c2 r3 =>
                              if is_char "}" c2 then Some (acc', r3)
                              else if is_char "," c2 then members_at f (skip_ws r3) acc'
                              else None
                          | "" => None
                          end
                      | None => None
                      end
                    else None
                | "" => None
                end
            | None => None
            end
          else None
      | "" => None
      end
  end

with items_at (fuel : nat) (s : string) (acc : list json)
  : option (list json * string) :=
  match fuel with
  | O => None
  | S f =>
      match value_at f s with
      | Some (v, r) =>
          match skip_ws r with
          | String c r1 =>
              if is_char "]" c then Some ((acc ++ [v])%list, r1)
              else if is_char "," c then items_at f (skip_ws r1) (acc ++ [v])%list
              else None
          | "" => None
          end
      | None => None
      end
  end.

(** [json.loads(s)]; [None] stands for [JSONDecodeError]. *)
Definition loads (s : string) : option json :=
  match value_at (S (String.length s)) (skip_ws s) with
  | Some (v, r) =>
      match skip_ws r with
      | "" => Some v
      | _ => None
      end
  | None => None
  end.

End Json.


(** ** Vocabulary of the properties *)

(** The character before the position reached after reading [s]. *)
Fixpoint last_char (pv : option ascii) (s : string) : option ascii :=
  match s with
  | "" => pv
  | String a s' => last_char (Some a) s'
  end.

(** Some character of [s] satisfies [p]. *)
Fixpoint any_char (p : ascii -> bool) (s : string) : bool :=
  match s with
  | "" => false
  | String a s' => p a || any_char p s'
  end.

(** The characters of [s] that satisfy [p]. *)
Fixpoint filter_chars (p : ascii -> bool) (s : string) : string :=
  match s with
  | "" => ""
  | String a s' => if p a then String a (filter_chars p s') else filter_chars p s'
  end.

(** The number of leading characters of [s] that satisfy [p]. *)
Fixpoint run_length (p : ascii -> bool) (s : string) : nat :=
  match s with
  | "" => 0
  | String a s' => if p a then S (run_length p s') else 0
  end.

(** A match anchored at the start: [pattern.match] returns a match. *)
Definition matches_at_start (r : regex) (s : string) : Prop :=
  exists e g, re_match r s = Some (e, g).

(** A match of [r] somewhere in [s]: an attempt succeeds at some split of
    the text. *)
Definition found (r : regex) (s : string) : Prop :=
  exists pre suf e g,
    s = pre ++ suf
    /\ match_here r (String.length pre) (last_char None pre) suf = Some (e, g).

(** No attempt succeeds from position [p] on. *)
Definition no_match_from (r : regex) (p : nat) (pv : option ascii) (suf : string) : Prop :=
  forall pre' suf',
    suf = pre' ++ suf' ->
    match_here r (p + String.length pre') (last_char pv pre') suf' = None.

(** [c] occurs in [s]. *)
Definition contains_char (c : ascii) (s : string) : Prop :=
  exists pre suf, s = pre ++ String c suf.

(** A decimal digit occurs in [s]. *)
Definition contains_digit (s : string) : Prop :=
  exists pre a suf, s = pre ++ String a suf /\ is_digit a = true.

(** Every true value of a [name] field is a text, so that [is_valid_name]
    does not raise. *)
Definition names_are_text (data : record) : Prop :=
  forall v, In ("name", v) data -> truthy v = true -> exists s, v = VStr s.

(** A group of a national id: four digits. *)
Definition four_digits (g : string) : Prop :=
  String.length g = 4 /\ all_chars is_digit g = true.

(** Between two groups: nothing, or one whitespace character or hyphen. *)
Definition gap_ok (gap : option ascii) : Prop :=
  match gap with
  | Some c => space_or_hyphen c = true
  | None => True
  end.

Definition gap_text (gap : option ascii) : string :=
  match gap with
  | Some c => String c ""
  | None => ""
  end.

(** A 12-digit national id, optionally grouped 4-4-4. *)
Definition aadhar_text (g1 : string) (gap1 : option ascii) (g2 : string)
    (gap2 : option ascii) (g3 : string) : string :=
  g1 ++ gap_text gap1 ++ g2 ++ gap_text gap2 ++ g3.

(** Sample inputs. *)

Definition device_only_record : record :=
  [("device_id", VStr "abcde"); ("ip_address", VStr "10.0.0.1")].

Definition bare_payload : string := "{name: John, date: 2024-01-05}".

(** [{name: "John", date: "2024-01-05"}] *)
Definition repaired_payload : string :=
  "{name: " ++ String dquote "John" ++ String dquote ", date: "
  ++ String dquote "2024-01-05" ++ String dquote "}".

(** [{"name":"John","date":"2024-01-05"}] *)
Definition quoted_payload : string :=
  "{" ++ String dquote "name" ++ String dquote ":" ++ String dquote "John"
  ++ String dquote "," ++ String dquote "date" ++ String dquote ":"
  ++ String dquote "2024-01-05" ++ String dquote "}".

(** [email] passes the standalone test through the payment-handle pattern
    and is masked by the first loop; the second loop, which would mask it
    too, leaves it alone. *)
Definition sample_record : record :=
  [("name", VStr "John Smith"); ("email", VStr "john@example.com");
   ("phone", VStr "9876543210"); ("device_id", VStr "dev-001")].

Definition order_record : record :=
  [("order_id", VInt 42); ("phone", VStr "9876543210"); ("city", VStr "Pune")].

(** Vocabulary of the further properties. *)

(** The field makes the loop of [has_combinatorial_pii] append one of the
    labels [name], [email], [address], [device_info]. *)
Definition single_signal (field : string) (v : value) : bool :=
  truthy v
  && ((match name_check field v with Ok b => b | Raise _ => false end)
      || (field =? "email")%string && is_valid_email v
      || (field =? "address")%string && is_valid_address v
      || field_in field ["device_id"; "ip_address"]
         && (5 <=? String.length (strip (py_str v)))).

(** The field is a name part of trimmed length at least 2. *)
Definition name_part_signal (field : string) (v : value) : bool :=
  truthy v && field_in field ["first_name"; "last_name"]
  && (2 <=? String.length (strip (py_str v))).

(** One for every field with a single signal, and one more when some name
    part counts. *)
Definition signal_count (data : record) : nat :=
  length (filter (fun fv => single_signal (fst fv) (snd fv)) data)
  + (if existsb (fun fv => name_part_signal (fst fv) (snd fv)) data then 1 else 0).

(** The second loop of [detect_pii_in_record] masks the field when it
    reaches it without a mask. *)
Definition second_pass_masks (field : string) (v : value) : bool :=
  truthy v
  && ((match name_check field v with Ok b => b | Raise _ => false end)
      || field_in field ["first_name"; "last_name"]
         && (2 <=? String.length (strip (py_str v)))
      || (field =? "email")%string && is_valid_email v
      || (field =? "address")%string && is_valid_address v
      || field_in field ["device_id"; "ip_address"]).

(** The mask of a field of the record, if any; [combinatorial] is the answer
    of [has_combinatorial_pii]. *)
Definition field_mask (combinatorial : bool) (field : string) (v : value)
  : option string :=
  if is_standalone_pii field v then Some (mask_value field v)
  else if combinatorial && second_pass_masks field v
  then Some (if field_in field ["device_id"; "ip_address"]
             then redacted_token else mask_value field v)
  else None.

(** A masked field is a field of the record with a true value, flagged by
    the standalone test or one of the combinatorial fields. *)
Definition masked_from (data : record) (pii_fields : Dict.dict string) : Prop :=
  forall field,
    In field (Dict.keys pii_fields) ->
    exists v,
      In (field, v) data /\ truthy v = true
      /\ (is_standalone_pii field v = true
          \/ field_in field combinatorial_fields = true).

(** * Properties *)

(** ** Text lemmas *)

Ltac each_char c :=
  destruct c as [[|] [|] [|] [|] [|] [|] [|] [|]]; vm_compute; try reflexivity;
  try discriminate; auto.

Lemma digit_not_space c : is_digit c = true -> is_space c = false.
Proof. each_char c. Qed.

Lemma word_or_dot_not_space c : word_or_dot c = true -> is_space c = false.
Proof. each_char c. Qed.

Lemma at_not_space : is_space "@" = false.
Proof. reflexivity. Qed.

Lemma all_chars_app p s t :
  all_chars p (s ++ t) = all_chars p s && all_chars p t.
Proof.
  induction s as [|a s IH]; simpl; [reflexivity|].
  rewrite IH. now rewrite andb_assoc.
Qed.

Lemma all_chars_impl (p q : ascii -> bool) s :
  (forall c, p c = true -> q c = true) ->
  all_chars p s = true -> all_chars q s = true.
Proof.
  intros Hpq. induction s as [|a s IH]; simpl; [reflexivity|].
  intros H. apply andb_true_iff in H as [Ha Hs].
  rewrite (Hpq _ Ha), (IH Hs). reflexivity.
Qed.

Lemma lstrip_by_none p s :
  all_chars (fun c => negb (p c)) s = true -> lstrip_by p s = s.
Proof.
  destruct s as [|a s]; simpl; [reflexivity|].
  intros H. apply andb_true_iff in H as [Ha _].
  apply negb_true_iff in Ha. now rewrite Ha.
Qed.

Lemma rstrip_by_none p s :
  all_chars (fun c => negb (p c)) s = true -> rstrip_by p s = s.
Proof.
  induction s as [|a s IH]; simpl; [reflexivity|].
  intros H. apply andb_true_iff in H as [Ha Hs].
  apply negb_true_iff in Ha. rewrite (IH Hs), Ha.
  destruct s; reflexivity.
Qed.

(** Text without whitespace is its own trimmed form. *)
Lemma strip_no_space s :
  all_chars (fun c => negb (is_space c)) s = true -> strip s = s.
Proof.
  intros H. unfold strip. rewrite (lstrip_by_none _ _ H). now apply rstrip_by_none.
Qed.

Lemma strip_digits s : all_chars is_digit s = true -> strip s = s.
Proof.
  intros H. apply strip_no_space. revert H. apply all_chars_impl.
  intros c Hc. now rewrite (digit_not_space _ Hc).
Qed.

Lemma length_app s t : String.length (s ++ t) = String.length s + String.length t.
Proof. induction s as [|a s IH]; simpl; [reflexivity|]. now rewrite IH. Qed.

Lemma length_replicate n c : String.length (replicate n c) = n.
Proof. induction n as [|n IH]; simpl; [reflexivity|]. now rewrite IH. Qed.

Lemma matches_at_start_iff r s : matches r s = true <-> matches_at_start r s.
Proof.
  unfold matches, matches_at_start. destruct (re_match r s) as [[e g]|].
  - split; [intros _; now exists e, g | reflexivity].
  - split; [discriminate | intros (e & g & H); discriminate].
Qed.

(** ** Standalone test *)

(** C5: [is_standalone_pii] answers false on a value that is empty (false
    in the sense of [not value]) or whose trimmed text has fewer than 3
    characters; on any other value it answers true exactly when the field is
    one of [phone], [aadhar], [passport], [upi_id] or the trimmed text has a
    match of one of the four patterns starting at its first character. *)
Theorem is_standalone_pii_spec (field : string) (v : value) :
  (truthy v = false \/ String.length (strip (py_str v)) < 3 ->
   is_standalone_pii field v = false)
  /\ (truthy v = true -> 3 <= String.length (strip (py_str v)) ->
      (is_standalone_pii field v = true <->
       field = "phone" \/ field = "aadhar" \/ field = "passport" \/ field = "upi_id"
       \/ matches_at_start phone_pattern (strip (py_str v))
       \/ matches_at_start aadhar_pattern (strip (py_str v))
       \/ matches_at_start passport_pattern (strip (py_str v))
       \/ matches_at_start upi_pattern (strip (py_str v)))).
Proof.
  unfold is_standalone_pii. split.
  - intros [H | H].
    + now rewrite H.
    + apply Nat.ltb_lt in H. rewrite H. now rewrite orb_true_r.
  - intros Ht Hl. rewrite Ht. apply Nat.ltb_ge in Hl. rewrite Hl. cbn [negb orb].
    rewrite <- !matches_at_start_iff.
    destruct (String.eqb_spec field "phone") as [Hp | Hp];
      [cbn [orb]; split; auto|].
    cbn [orb].
    destruct (matches phone_pattern _); [split; auto 10|].
    destruct (String.eqb_spec field "aadhar") as [Ha | Ha];
      [cbn [orb]; split; auto|].
    cbn [orb].
    destruct (matches aadhar_pattern _); [split; auto 10|].
    destruct (String.eqb_spec field "passport") as [Hs | Hs];
      [cbn [orb]; split; auto|].
    cbn [orb].
    destruct (matches passport_pattern _); [split; auto 10|].
    destruct (String.eqb_spec field "upi_id") as [Hu | Hu];
      [cbn [orb]; split; auto 10|].
    cbn [orb].
    destruct (matches upi_pattern _); [split; auto 10|].
    split; [discriminate|]. intros H.
    repeat (destruct H as [H | H]; try congruence).
Qed.

(** A match at the start need not reach the end of the value. *)
Example phone_pattern_prefix :
  re_match phone_pattern "9876543210 (home)" = Some (10, [])
  /\ is_standalone_pii "note" (VStr "9876543210 (home)") = true.
Proof. vm_compute. split; reflexivity. Qed.

Lemma is_standalone_pii_spec_witness :
  is_standalone_pii "passport" (VStr "unknown") = true.
Proof.
  apply (proj2 (is_standalone_pii_spec "passport" (VStr "unknown")));
    [reflexivity | vm_compute; lia | right; right; left; reflexivity].
Defined.

(** ** Combinatorial test *)

(** C1: on a record whose only qualifying fields are [device_id] and
    [ip_address], both of trimmed length at least 5, the loop appends the
    label [device_info] once per field, unlike [name_parts], which it appends
    only when absent; the list has two entries and the test answers true with
    a single category present. *)
Theorem device_info_counted_per_field :
  String.length (strip "abcde") >= 5 /\ String.length (strip "10.0.0.1") >= 5
  /\ pii_fields_present device_only_record = Ok ["device_info"; "device_info"]
  /\ has_combinatorial_pii device_only_record = Ok true.
Proof. vm_compute. repeat split; lia. Qed.

(** The sibling branch: both name parts present give one label. *)
Example name_parts_counted_once :
  pii_fields_present [("first_name", VStr "Asha"); ("last_name", VStr "Rao")]
  = Ok ["name_parts"]
  /\ has_combinatorial_pii [("first_name", VStr "Asha"); ("last_name", VStr "Rao")]
     = Ok false.
Proof. vm_compute. split; reflexivity. Qed.

(** ** National-id values under the field [aadhar] *)

Lemma digit_is_word c : is_digit c = true -> is_word c = true.
Proof. each_char c. Qed.

Lemma gap_not_digit c : space_or_hyphen c = true -> is_digit c = false.
Proof. each_char c. Qed.

(** A repetition with equal bounds needs a run of that length and has no
    other way through. *)
Lemma rep_exact c k : forall n s p pv g,
  rep c n (Some n) k p pv s g
  = if n <=? run_length c s
    then k (p + n) (last_char pv (take n s)) (drop n s) g
    else None.
Proof.
  induction n as [|n IH]; intros s p pv g.
  - rewrite Nat.add_0_r. destruct s as [|a s]; reflexivity.
  - destruct s as [|a s]; [reflexivity|].
    cbn [rep hi_open run_length]. destruct (c a); cbn [andb]; [|reflexivity].
    cbn [pred dec_hi]. rewrite IH. cbn [Nat.leb take drop last_char rep_stop].
    replace (S p + n) with (p + S n) by lia.
    destruct (n <=? run_length c s); [|reflexivity].
    destruct (k _ _ _ g); reflexivity.
Qed.

Lemma rstrip_by_last p : forall s pv z,
  s <> "" -> last_char pv s = Some z -> p z = false -> rstrip_by p s = s.
Proof.
  induction s as [|a s IH]; intros pv z Hne Hlast Hz; [contradiction|].
  cbn [rstrip_by]. destruct s as [|b s].
  - cbn in Hlast. injection Hlast as ->. cbn. now rewrite Hz.
  - rewrite (IH (Some a) z); [reflexivity | discriminate | exact Hlast | exact Hz].
Qed.

(** [re.sub(r'[^\d]', '', s)] keeps the digits of [s]. *)
Lemma sub_non_digit : forall s p pv,
  sub_from (RClass non_digit) [] p pv s 0 = filter_chars is_digit s.
Proof.
  induction s as [|a s IH]; intros p pv; [reflexivity|].
  cbn [sub_from filter_chars]. unfold match_here. cbn [m]. unfold non_digit at 1.
  destruct (is_digit a); cbn [negb accept expand append].
  - f_equal. apply IH.
  - destruct (Nat.eqb_spec (S p) p) as [Hp | _]; [lia|].
    replace (S p - p - 1) with 0 by lia. apply IH.
Qed.

Ltac use_char_facts :=
  repeat match goal with
         | H : _ = true |- _ => rewrite H
         | H : _ = false |- _ => rewrite H
         end.

Ltac four_chars g H :=
  let L := fresh "L" in
  let D := fresh "D" in
  destruct H as [L D];
  do 4 (destruct g as [|? g]; [discriminate L|]);
  destruct g; [clear L | discriminate L];
  cbn [all_chars] in D;
  repeat match type of D with
         | _ && _ = true => let D' := fresh "D" in apply andb_true_iff in D as [D' D]
         end;
  clear D.

Ltac digit_facts :=
  repeat match goal with
         | H : is_digit ?c = true |- _ =>
             lazymatch goal with
             | _ : is_word c = true |- _ => fail
             | _ => pose proof (digit_is_word c H); pose proof (digit_not_space c H)
             end
         end.

(** Under the field [aadhar], every 12-digit national id, grouped or not,
    is masked to its first two digits, eight [X] and its last two digits. *)
Lemma mask_value_aadhar_field g1 gap1 g2 gap2 g3 :
  four_digits g1 -> four_digits g2 -> four_digits g3 ->
  gap_ok gap1 -> gap_ok gap2 ->
  mask_value "aadhar" (VStr (aadhar_text g1 gap1 g2 gap2 g3))
  = take 2 g1 ++ "XXXXXXXX" ++ drop 2 g3.
Proof.
  intros H1 H2 H3 Hg1 Hg2.
  four_chars g1 H1. four_chars g2 H2. four_chars g3 H3. digit_facts.
  assert (Hx : forall gap, gap_ok gap ->
            match gap with Some c => is_digit c = false | None => True end).
  { intros [c|] Hgap; [now apply gap_not_digit | exact I]. }
  apply Hx in Hg1, Hg2. clear Hx.
  unfold mask_value, aadhar_text. cbn [py_str].
  destruct gap1 as [x|], gap2 as [y|]; cbn [gap_text append];
    match goal with
    | |- context [strip ?t] =>
        replace (strip t) with t
          by (symmetry; unfold strip; cbn [lstrip_by]; use_char_facts;
              eapply (rstrip_by_last _ _ None); [discriminate | reflexivity | assumption])
    end;
    change (("aadhar" =? "phone")%string) with false;
    change (("aadhar" =? "aadhar")%string) with true;
    unfold matches, re_match, match_here, phone_pattern, times, sub;
    cbn [seq m orb]; rewrite rep_exact, sub_non_digit;
    cbn [word_before word_after run_length filter_chars take drop last_char
         Nat.leb Nat.add m accept xorb];
    use_char_facts;
    cbn [word_before word_after run_length filter_chars take drop last_char
         Nat.leb Nat.add m accept xorb];
    use_char_facts; reflexivity.
Qed.

Example mask_value_aadhar_grouped :
  mask_value "aadhar" (VStr "1234 5678-9012") = "12XXXXXXXX12".
Proof.
  apply (mask_value_aadhar_field "1234" (Some " "%char) "5678" (Some "-"%char) "9012");
    try (split; reflexivity); reflexivity.
Qed.

(** ** Masking of national-id values *)

(** C2: a 12-digit value in a field that is not called [aadhar] is flagged by
    the standalone test through the national-id pattern, but [mask_value]
    takes its national-id branch on the field name only (the phone branch
    also looks at the pattern), so the value falls to the generic token
    instead of the 2-X8-2 shape. *)
Theorem aadhar_value_in_other_field :
  matches aadhar_pattern "123456789012" = true
  /\ is_standalone_pii "id_number" (VStr "123456789012") = true
  /\ mask_value "id_number" (VStr "123456789012") = "[REDACTED]"
  /\ mask_value "id_number" (VStr "1234 5678 9012") = "[REDACTED]"
  /\ mask_value "aadhar" (VStr "123456789012") = "12XXXXXXXX12".
Proof. vm_compute. repeat split; reflexivity. Qed.

(** The raw-text path masks what the national-id pattern finds. *)
Example raw_redaction_masks_aadhar_by_pattern :
  redact_pii_in_raw_string "id_number: 1234 5678 9012" = "id_number: 12XXXXXXXX12".
Proof. vm_compute. reflexivity. Qed.

(** ** Malformed-payload repair *)

Example quoted_payload_decodes :
  Json.loads quoted_payload
  = Some (Json.JObject [("name", Json.JString "John");
                        ("date", Json.JString "2024-01-05")]).
Proof. vm_compute. reflexivity. Qed.

(** C3, as stated, fails: the repaired text of the bare payload does not
    decode. *)
Lemma repaired_bare_payload_does_not_decode :
  Json.loads (fix_malformed_json bare_payload) = None.
Proof. vm_compute. reflexivity. Qed.

(** C3, amended: the repair quotes the two bare values of the payload and
    leaves its keys bare, and the text it produces is still refused by the
    decoder. *)
Theorem repair_quotes_values_only :
  fix_malformed_json bare_payload = repaired_payload
  /\ Json.loads repaired_payload = None.
Proof. vm_compute. split; reflexivity. Qed.

(** ** Phone numbers *)

Lemma truthy_nonempty a s : truthy (VStr (String a s)) = true.
Proof. reflexivity. Qed.

(** C7: for a text [v] of exactly 10 digits, the standalone test on the field
    [phone] answers true, and the mask of [v] has the first two and the last
    two characters of [v] with six [X] between them: it has the length of
    [v], agrees with [v] at the positions 0, 1, 8 and 9 and has [X] at the
    positions 2 to 7. *)
Theorem phone_ten_digits (v : string) :
  String.length v = 10 -> all_chars is_digit v = true ->
  is_standalone_pii "phone" (VStr v) = true
  /\ mask_value "phone" (VStr v) = take 2 v ++ "XXXXXX" ++ drop 8 v
  /\ String.length (mask_value "phone" (VStr v)) = 10
  /\ (forall i, i < 2 \/ 8 <= i ->
        String.get i (mask_value "phone" (VStr v)) = String.get i v)
  /\ (forall i, 2 <= i < 8 ->
        String.get i (mask_value "phone" (VStr v)) = Some "X"%char).
Proof.
  intros Hlen Hdig.
  assert (Hstrip : strip v = v) by now apply strip_digits.
  assert (Hmask : mask_value "phone" (VStr v) = take 2 v ++ "XXXXXX" ++ drop 8 v).
  { unfold mask_value. cbn [py_str]. rewrite Hstrip.
    change (("phone" =? "phone")%string) with true. cbn [orb].
    unfold last_n. rewrite Hlen. reflexivity. }
  split.
  - unfold is_standalone_pii. cbn [py_str]. rewrite Hstrip, Hlen.
    destruct v as [|a v]; [discriminate|].
    rewrite truthy_nonempty. reflexivity.
  - rewrite Hmask. clear Hmask Hstrip Hdig.
    do 10 (destruct v as [|? v]; [discriminate|]).
    destruct v; [|discriminate].
    split; [reflexivity|]. split; [reflexivity|]. split.
    + intros i [Hi | Hi].
      * do 2 (destruct i as [|i]; [reflexivity|]). lia.
      * do 8 (destruct i as [|i]; [lia|]).
        do 2 (destruct i as [|i]; [reflexivity|]). reflexivity.
    + intros i [Hlo Hhi].
      do 2 (destruct i as [|i]; [lia|]).
      do 6 (destruct i as [|i]; [reflexivity|]). lia.
Qed.

Lemma phone_ten_digits_witness :
  is_standalone_pii "phone" (VStr "9876543210") = true
  /\ mask_value "phone" (VStr "9876543210") = "98XXXXXX10".
Proof.
  destruct (phone_ten_digits "9876543210") as (H1 & H2 & _);
    [reflexivity | reflexivity |].
  split; [exact H1 | exact H2].
Defined.

(** ** Matcher lemmas *)

(** An unbounded repetition succeeds as soon as its continuation accepts
    after some run of characters of the class that is long enough: the greedy
    search tries that split unless a longer one has succeeded before. *)
Lemma rep_reaches c k u :
  forall lo p pv rest g x,
    all_chars c u = true -> lo <= String.length u ->
    k (p + String.length u) (last_char pv u) rest g = Some x ->
    exists y, rep c lo None k p pv (u ++ rest) g = Some y.
Proof.
  induction u as [|a u IH]; intros lo p pv rest g x Hall Hlo Hk.
  - cbn in Hlo, Hk. rewrite Nat.add_0_r in Hk.
    assert (lo = 0) by lia. subst lo. cbn [append].
    destruct rest as [|b rest]; cbn [rep rep_stop].
    + eauto.
    + destruct (hi_open None && c b); [|eauto].
      destruct (rep c _ _ k _ _ rest g); eauto.
  - cbn in Hall. apply andb_true_iff in Hall as [Ha Hall].
    cbn [append rep]. rewrite Ha. cbn [hi_open andb].
    destruct (IH (pred lo) (S p) (Some a) rest g x Hall) as [y Hy].
    + cbn in Hlo. lia.
    + cbn [String.length last_char] in Hk.
      now replace (S p + String.length u) with (p + S (String.length u)) by lia.
    + cbn [dec_hi]. rewrite Hy. eauto.
Qed.

(** A text of word characters and dots with a word character in it splits
    after a word character at a place where no word character follows. *)
Lemma word_boundary_split d :
  all_chars word_or_dot d = true -> any_char is_word d = true ->
  exists d1 d2,
    d = d1 ++ d2 /\ all_chars word_or_dot d1 = true /\ 1 <= String.length d1
    /\ (forall pv, word_before (last_char pv d1) = true)
    /\ word_after d2 = false.
Proof.
  induction d as [|a d IH]; [discriminate|].
  cbn [all_chars any_char]. intros Hall Hany.
  apply andb_true_iff in Hall as [Ha Hall].
  destruct (any_char is_word d) eqn:Hd.
  - destruct (IH Hall eq_refl) as (d1 & d2 & -> & H1 & Hlen & Hlast & Hafter).
    exists (String a d1), d2. cbn [append all_chars String.length last_char].
    rewrite Ha, H1. repeat split; auto; try lia.
  - rewrite orb_false_r in Hany.
    exists (String a ""), d.
    cbn [append all_chars String.length last_char word_before].
    rewrite Ha, Hany.
    repeat split; auto.
    destruct d as [|b d]; [reflexivity|].
    cbn in Hd. apply orb_false_iff in Hd as [Hb _]. exact Hb.
Qed.

(** Word characters and dots around an [@], starting with a word character
    and with a word character after the [@], match the payment-handle
    pattern. *)
Lemma upi_matches_address a u d :
  is_word a = true -> all_chars word_or_dot u = true ->
  all_chars word_or_dot d = true -> any_char is_word d = true ->
  matches upi_pattern (String a u ++ "@" ++ d) = true.
Proof.
  intros Ha Hu Hd Hany.
  destruct (word_boundary_split d Hd Hany)
    as (d1 & d2 & -> & H1 & Hlen & Hlast & Hafter).
  assert (Hau : all_chars word_or_dot (String a u) = true).
  { cbn [all_chars]. rewrite Hu. unfold word_or_dot. now rewrite Ha. }
  assert (Hfirst : exists y,
    m (seq [RWordB; plus word_or_dot; RClass (is_char "@"); plus word_or_dot; RWordB])
      accept 0 None (String a u ++ "@" ++ d1 ++ d2) [] = Some y).
  { cbn [seq m plus word_before].
    replace (word_after (String a u ++ "@" ++ d1 ++ d2)) with true
      by (symmetry; exact Ha).
    cbn [xorb].
    set (k2 := fun (p' : nat) (pv' : option ascii) (s' : string) (g' : caps) =>
                 if xorb (word_before pv') (word_after s')
                 then accept p' pv' s' g' else None).
    destruct (rep_reaches word_or_dot k2 d1 1
                (S (0 + String.length (String a u))) (Some "@"%char) d2 []
                (S (0 + String.length (String a u)) + String.length d1, [])
                H1 Hlen) as [z Hz].
    { unfold k2. rewrite Hlast, Hafter. reflexivity. }
    eapply rep_reaches; [exact Hau | cbn; lia |].
    cbn [append m]. change (is_char "@" "@") with true. cbv iota.
    fold k2. exact Hz. }
  destruct Hfirst as [y Hy].
  unfold matches, re_match, match_here, upi_pattern. cbn [m].
  cbn [seq m] in Hy. cbn [seq m].
  rewrite Hy. reflexivity.
Qed.

Lemma falsy_no_upi v :
  truthy v = false -> matches upi_pattern (strip (py_str v)) = false.
Proof.
  destruct v as [| b | z | s | b | t | | | t]; cbn [truthy]; intros H;
    try discriminate; try reflexivity.
  - subst b. reflexivity.
  - apply negb_false_iff, Z.eqb_eq in H. subst z. reflexivity.
  - apply negb_false_iff, String.eqb_eq in H. subst s. reflexivity.
  - destruct b; reflexivity.
Qed.

(** ** Payment handles and email-shaped values *)

(** C10: in any field, a value whose trimmed text has at least 3 characters
    and a match of the payment-handle pattern at its start is standalone PII;
    this covers every address made of word characters and dots around an [@]
    whose local part starts with a word character and whose domain has a word
    character. *)
Theorem upi_match_is_standalone (field : string) :
  (forall v,
     3 <= String.length (strip (py_str v)) ->
     matches_at_start upi_pattern (strip (py_str v)) ->
     is_standalone_pii field v = true)
  /\ (forall a u d,
        is_word a = true -> all_chars word_or_dot u = true ->
        all_chars word_or_dot d = true -> any_char is_word d = true ->
        matches_at_start upi_pattern (String a u ++ "@" ++ d)
        /\ is_standalone_pii field (VStr (String a u ++ "@" ++ d)) = true).
Proof.
  assert (Hgen : forall v,
     3 <= String.length (strip (py_str v)) ->
     matches upi_pattern (strip (py_str v)) = true ->
     is_standalone_pii field v = true).
  { intros v Hlen Hm. unfold is_standalone_pii.
    destruct (truthy v) eqn:Ht.
    - apply Nat.ltb_ge in Hlen. rewrite Hlen, Hm. cbn [negb orb].
      rewrite orb_true_r.
      repeat match goal with |- (if ?b then _ else _) = _ => destruct b end;
        reflexivity.
    - rewrite (falsy_no_upi v Ht) in Hm. discriminate. }
  split.
  - intros v Hlen Hm. apply Hgen; [exact Hlen|]. now apply matches_at_start_iff.
  - intros a u d Ha Hu Hd Hany.
    pose proof (upi_matches_address a u d Ha Hu Hd Hany) as Hm.
    assert (Hns : all_chars (fun c => negb (is_space c)) (String a u ++ "@" ++ d) = true).
    { assert (Hau : all_chars word_or_dot (String a u) = true).
      { cbn [all_chars]. rewrite Hu. unfold word_or_dot. now rewrite Ha. }
      rewrite all_chars_app. apply andb_true_iff. split.
      - revert Hau. apply all_chars_impl. intros c Hc.
        now rewrite (word_or_dot_not_space c Hc).
      - cbn [append all_chars]. rewrite at_not_space. cbn [negb andb].
        revert Hd. apply all_chars_impl. intros c Hc.
        now rewrite (word_or_dot_not_space c Hc). }
    split; [now apply matches_at_start_iff|].
    apply Hgen; cbn [py_str]; rewrite (strip_no_space _ Hns); [|exact Hm].
    rewrite length_app. cbn [String.length append].
    destruct d as [|b d]; [discriminate|]. cbn [String.length]. lia.
Qed.

Lemma upi_match_is_standalone_witness :
  is_standalone_pii "notes" (VStr "john.doe@example.com") = true.
Proof.
  apply (proj2 (upi_match_is_standalone "notes") "j"%char "ohn.doe" "example.com");
    reflexivity.
Defined.

(** ** Unanchored search *)

Lemma no_match_from_here r p pv suf :
  no_match_from r p pv suf -> match_here r p pv suf = None.
Proof.
  intros H. specialize (H "" suf eq_refl). cbn in H.
  now rewrite Nat.add_0_r in H.
Qed.

Lemma no_match_from_next r p pv a suf :
  no_match_from r p pv (String a suf) -> no_match_from r (S p) (Some a) suf.
Proof.
  intros H pre' suf' ->. specialize (H (String a pre') suf' eq_refl).
  cbn [String.length last_char] in H.
  now replace (S p + String.length pre') with (p + S (String.length pre')) by lia.
Qed.

Lemma search_from_none r : forall suf p pv,
  search_from r p pv suf = None <-> no_match_from r p pv suf.
Proof.
  induction suf as [|a suf IH]; intros p pv; cbn [search_from].
  - split.
    + intros H pre' suf' Heq.
      destruct pre'; [|discriminate]. cbn in Heq. subst suf'.
      cbn. rewrite Nat.add_0_r.
      destruct (match_here r p pv "") as [[e g]|]; [discriminate | reflexivity].
    + intros H. now rewrite (no_match_from_here _ _ _ _ H).
  - split.
    + intros H pre' suf' Heq.
      destruct (match_here r p pv (String a suf)) as [[e g]|] eqn:Hm;
        [discriminate|].
      destruct pre' as [|b pre'].
      * cbn in Heq. subst suf'. cbn. now rewrite Nat.add_0_r.
      * cbn in Heq. injection Heq as <- ->.
        apply (proj1 (IH _ _)) in H. specialize (H pre' suf' eq_refl).
        cbn [String.length last_char].
        now replace (p + S (String.length pre')) with (S p + String.length pre') by lia.
    + intros H. rewrite (no_match_from_here _ _ _ _ H).
      apply (proj2 (IH _ _)). exact (no_match_from_next _ _ _ _ _ H).
Qed.

Lemma search_from_some r : forall suf p pv q e g,
  search_from r p pv suf = Some (q, e, g) ->
  exists pre' suf',
    suf = pre' ++ suf'
    /\ match_here r (p + String.length pre') (last_char pv pre') suf' = Some (e, g).
Proof.
  induction suf as [|a suf IH]; intros p pv q e g; cbn [search_from].
  - destruct (match_here r p pv "") as [[e' g']|] eqn:Hm; [|discriminate].
    intros H. injection H as _ <- <-.
    exists "", "". cbn. rewrite Nat.add_0_r. auto.
  - destruct (match_here r p pv (String a suf)) as [[e' g']|] eqn:Hm.
    + intros H. injection H as _ <- <-.
      exists "", (String a suf). cbn. rewrite Nat.add_0_r. auto.
    + intros H. destruct (IH _ _ _ _ _ H) as (pre' & suf' & -> & H').
      exists (String a pre'), suf'. split; [reflexivity|].
      cbn [String.length last_char].
      now replace (p + S (String.length pre')) with (S p + String.length pre') by lia.
Qed.

(** [pattern.search] answers exactly when some attempt succeeds. *)
Lemma search_found r s : search r s = true <-> found r s.
Proof.
  unfold search, found. split.
  - destruct (search_from r 0 None s) as [[[q e] g]|] eqn:Hs; [|discriminate].
    intros _. apply search_from_some in Hs as (pre & suf & -> & H).
    exists pre, suf, e, g. auto.
  - intros (pre & suf & e & g & -> & H).
    destruct (search_from r 0 None (pre ++ suf)) as [x|] eqn:Hs; [reflexivity|].
    apply search_from_none in Hs. specialize (Hs pre suf eq_refl).
    cbn in Hs. congruence.
Qed.

(** Without a match, [sub] and [finditer] have nothing to act on. *)
Lemma sub_from_no_match r t : forall suf p pv,
  no_match_from r p pv suf -> sub_from r t p pv suf 0 = suf.
Proof.
  induction suf as [|a suf IH]; intros p pv H; cbn [sub_from];
    rewrite (no_match_from_here _ _ _ _ H); [reflexivity|].
  f_equal. apply IH. exact (no_match_from_next _ _ _ _ _ H).
Qed.

Lemma finditer_from_no_match r : forall suf p pv,
  no_match_from r p pv suf -> finditer_from r p pv suf 0 = [].
Proof.
  induction suf as [|a suf IH]; intros p pv H; cbn [finditer_from];
    rewrite (no_match_from_here _ _ _ _ H); [reflexivity|].
  apply IH. exact (no_match_from_next _ _ _ _ _ H).
Qed.

Lemma sub_no_search r t s : search r s = false -> sub r t s = s.
Proof.
  unfold search, sub. destruct (search_from r 0 None s) eqn:Hs; [discriminate|].
  intros _. apply sub_from_no_match. now apply search_from_none.
Qed.

Lemma finditer_no_search r s : search r s = false -> finditer r s = [].
Proof.
  unfold search, finditer. destruct (search_from r 0 None s) eqn:Hs; [discriminate|].
  intros _. apply finditer_from_no_match. now apply search_from_none.
Qed.

(** ** Raw-text fallback *)

(** C8: [detect_pii_in_raw_string] answers true exactly when one of the five
    patterns has a match somewhere in the text, and on a text where none has
    one [redact_pii_in_raw_string] returns the text as it is. *)
Theorem raw_fallback_spec (raw_str : string) :
  (detect_pii_in_raw_string raw_str = true <->
   found phone_pattern raw_str \/ found aadhar_pattern raw_str
   \/ found passport_pattern raw_str \/ found upi_pattern raw_str
   \/ found email_pattern raw_str)
  /\ (~ (found phone_pattern raw_str \/ found aadhar_pattern raw_str
         \/ found passport_pattern raw_str \/ found upi_pattern raw_str
         \/ found email_pattern raw_str) ->
      detect_pii_in_raw_string raw_str = false
      /\ redact_pii_in_raw_string raw_str = raw_str).
Proof.
  rewrite <- !search_found.
  unfold detect_pii_in_raw_string, redact_pii_in_raw_string.
  destruct (search phone_pattern raw_str) eqn:H1.
  { split; [tauto | intros H; exfalso; apply H; auto]. }
  destruct (search aadhar_pattern raw_str) eqn:H2.
  { split; [tauto | intros H; exfalso; apply H; auto]. }
  destruct (search passport_pattern raw_str) eqn:H3.
  { split; [tauto | intros H; exfalso; apply H; auto]. }
  destruct (search upi_pattern raw_str) eqn:H4.
  { split; [tauto | intros H; exfalso; apply H; auto]. }
  destruct (search email_pattern raw_str) eqn:H5.
  { split; [tauto | intros H; exfalso; apply H; auto 6]. }
  split.
  - split; [discriminate|]. intros H.
    repeat (destruct H as [H | H]; try discriminate).
  - intros _. split; [reflexivity|].
    rewrite (finditer_no_search _ _ H1), (finditer_no_search _ _ H2).
    cbn [fold_left].
    rewrite (sub_no_search _ _ _ H3), (sub_no_search _ _ _ H4).
    apply (sub_no_search _ _ _ H5).
Qed.

Example raw_fallback_match_inside :
  found phone_pattern "call 9876543210 now"
  /\ detect_pii_in_raw_string "call 9876543210 now" = true
  /\ redact_pii_in_raw_string "call 9876543210 now" = "call 98XXXXXX10 now".
Proof.
  split; [|split; vm_compute; reflexivity].
  exists "call ", "9876543210 now", 15, []. split; reflexivity.
Qed.

Lemma raw_fallback_spec_witness :
  redact_pii_in_raw_string "order 42 shipped" = "order 42 shipped".
Proof.
  apply (proj2 (raw_fallback_spec "order 42 shipped")).
  rewrite <- !search_found. vm_compute. intuition discriminate.
Defined.

(** ** Address test *)

Lemma mem_char_contains c s : mem_char c s = true <-> contains_char c s.
Proof.
  unfold contains_char. induction s as [|a s IH]; cbn [mem_char].
  - split; [discriminate|]. intros (pre & suf & H). destruct pre; discriminate.
  - split.
    + intros H. apply orb_true_iff in H as [H | H].
      * apply Ascii.eqb_eq in H. subst a. now exists "", s.
      * apply IH in H as (pre & suf & ->). now exists (String a pre), suf.
    + intros (pre & suf & H). destruct pre as [|b pre]; cbn in H.
      * injection H as -> ->. now rewrite Ascii.eqb_refl.
      * injection H as -> ->. apply orb_true_iff. right.
        apply IH. now exists pre, suf.
Qed.

Lemma search_digit_contains s :
  search (RClass is_digit) s = true <-> contains_digit s.
Proof.
  rewrite search_found. unfold found, contains_digit, match_here. cbn [m]. split.
  - intros (pre & suf & e & g & -> & H).
    destruct suf as [|a suf]; [discriminate|].
    destruct (is_digit a) eqn:Ha; [|discriminate].
    now exists pre, a, suf.
  - intros (pre & a & suf & -> & Ha).
    exists pre, (String a suf), (S (String.length pre)), [].
    split; [reflexivity|]. now rewrite Ha.
Qed.

(** C4, as stated, fails: the length test is on the text as it is, so
    trailing blanks count, and a value whose trimmed text has 9 characters is
    accepted. *)
Lemma padded_short_address_accepted :
  String.length (strip (py_str (VStr "5, Elm St   "))) < 10
  /\ is_valid_address (VStr "5, Elm St   ") = true.
Proof. vm_compute. split; [lia | reflexivity]. Qed.

(** C4, amended: [is_valid_address] rejects a value that is missing (false
    in the sense of [not value]) or whose text, untrimmed, has fewer than 10
    characters; any other value it accepts exactly when the text has a comma
    and either has a digit or splits into at least 4 whitespace-separated
    tokens. *)
Theorem is_valid_address_spec (v : value) :
  (truthy v = false \/ String.length (py_str v) < 10 ->
   is_valid_address v = false)
  /\ (truthy v = true -> 10 <= String.length (py_str v) ->
      (is_valid_address v = true <->
       contains_char "," (py_str v)
       /\ (contains_digit (py_str v) \/ 4 <= length (split_ws (py_str v))))).
Proof.
  unfold is_valid_address. split.
  - intros [H | H].
    + now rewrite H.
    + apply Nat.ltb_lt in H. rewrite H. now rewrite orb_true_r.
  - intros Ht Hl. rewrite Ht. apply Nat.ltb_ge in Hl. rewrite Hl. cbn [negb orb].
    rewrite andb_true_iff, orb_true_iff, mem_char_contains,
      search_digit_contains, Nat.leb_le.
    reflexivity.
Qed.

Lemma is_valid_address_spec_witness :
  is_valid_address (VStr "123 Main St, Springfield") = true
  /\ is_valid_address (VStr "no comma here") = false.
Proof.
  split.
  - apply (proj2 (is_valid_address_spec (VStr "123 Main St, Springfield")));
      [reflexivity | vm_compute; lia |].
    split.
    + now exists "123 Main St", " Springfield".
    + left. now exists "", "1"%char, "23 Main St, Springfield".
  - destruct (is_valid_address (VStr "no comma here")) eqn:H; [|reflexivity].
    apply (proj2 (is_valid_address_spec (VStr "no comma here"))) in H;
      [|reflexivity | vm_compute; lia].
    destruct H as [H _]. apply mem_char_contains in H. discriminate H.
Defined.

(** ** Dict lemmas *)

Section DictFacts.
Context {V : Type}.
Implicit Types (d : Dict.dict V) (k : string) (v : V).

Lemma get_set_same k v d : Dict.get k (Dict.set k v d) = Some v.
Proof.
  induction d as [|[k' v'] d IH]; cbn.
  - now rewrite String.eqb_refl.
  - destruct (String.eqb_spec k' k) as [-> | Hne]; cbn.
    + now rewrite String.eqb_refl.
    + destruct (String.eqb_spec k' k); [contradiction|]. exact IH.
Qed.

Lemma get_set_other k k' v d :
  k <> k' -> Dict.get k' (Dict.set k v d) = Dict.get k' d.
Proof.
  intros Hne. induction d as [|[k0 v0] d IH]; cbn.
  - destruct (String.eqb_spec k k'); [contradiction | reflexivity].
  - destruct (String.eqb_spec k0 k) as [-> | Hk]; cbn.
    + destruct (String.eqb_spec k k'); [contradiction | reflexivity].
    + destruct (String.eqb_spec k0 k'); [reflexivity | exact IH].
Qed.

Lemma mem_true_get k d : Dict.mem k d = true <-> exists v, Dict.get k d = Some v.
Proof.
  unfold Dict.mem. destruct (Dict.get k d) as [v|].
  - split; eauto.
  - split; [discriminate | intros [v H]; discriminate].
Qed.

Lemma mem_false_get k d : Dict.mem k d = false <-> Dict.get k d = None.
Proof.
  unfold Dict.mem. destruct (Dict.get k d); split; congruence.
Qed.

Lemma get_in_keys k d : Dict.get k d <> None <-> In k (Dict.keys d).
Proof.
  induction d as [|[k' v'] d IH]; cbn.
  - split; [congruence | tauto].
  - destruct (String.eqb_spec k' k) as [-> | Hne].
    + split; [auto | discriminate].
    + rewrite IH. split; [auto | intros [H | H]; [contradiction | exact H]].
Qed.

(** An assignment to a present key keeps the keys and their order. *)
Lemma keys_set_present k v d :
  Dict.mem k d = true -> Dict.keys (Dict.set k v d) = Dict.keys d.
Proof.
  unfold Dict.mem. induction d as [|[k' v'] d IH]; cbn; [discriminate|].
  destruct (String.eqb_spec k' k) as [-> | Hne]; cbn; [reflexivity|].
  intros H. f_equal. exact (IH H).
Qed.

(** An assignment to an absent key adds it at the end. *)
Lemma keys_set_absent k v d :
  Dict.mem k d = false -> Dict.keys (Dict.set k v d) = (Dict.keys d ++ [k])%list.
Proof.
  unfold Dict.mem. induction d as [|[k' v'] d IH]; cbn; [reflexivity|].
  destruct (String.eqb_spec k' k) as [-> | Hne]; cbn; [discriminate|].
  intros H. f_equal. exact (IH H).
Qed.

Lemma NoDup_snoc (l : list string) (k : string) :
  NoDup l -> ~ In k l -> NoDup (l ++ [k])%list.
Proof.
  intros Hl Hk. induction Hl as [|x l Hx Hl IH]; cbn.
  - constructor; [tauto | constructor].
  - constructor.
    + rewrite in_app_iff. cbn. intros [H | [H | []]]; [contradiction|].
      subst x. apply Hk. now left.
    + apply IH. intros H. apply Hk. now right.
Qed.

Lemma keys_set_nodup k v d :
  NoDup (Dict.keys d) -> NoDup (Dict.keys (Dict.set k v d)).
Proof.
  intros Hd. destruct (Dict.mem k d) eqn:Hm.
  - now rewrite keys_set_present.
  - rewrite keys_set_absent by exact Hm. apply NoDup_snoc; [exact Hd|].
    intros Hin. apply get_in_keys in Hin. apply mem_false_get in Hm. contradiction.
Qed.

(** With distinct keys, an entry of the dict is what [get] finds. *)
Lemma get_of_in k v d :
  NoDup (Dict.keys d) -> In (k, v) d -> Dict.get k d = Some v.
Proof.
  induction d as [|[k' v'] d IH]; cbn; [tauto|].
  intros Hnd [Heq | Hin].
  - injection Heq as -> ->. now rewrite String.eqb_refl.
  - inversion Hnd as [|? ? Hk' Hd]; subst.
    destruct (String.eqb_spec k' k) as [-> | Hne].
    + exfalso. apply Hk'. change k with (fst (k, v)). now apply in_map.
    + now apply IH.
Qed.

End DictFacts.

(** ** Record-level orchestration *)

Lemma standalone_fold_nodup (data : record) : forall st,
  NoDup (Dict.keys (snd st)) ->
  NoDup (Dict.keys (snd (fold_left (fun st fv => standalone_step st (fst fv) (snd fv))
                                   data st))).
Proof.
  induction data as [|[f v] data IH]; intros st Hst; cbn [fold_left]; [exact Hst|].
  apply IH. unfold standalone_step. cbn [fst snd].
  destruct (is_standalone_pii f v); [|exact Hst].
  cbn [snd]. now apply keys_set_nodup.
Qed.

Lemma standalone_fold_other (field : string) (data : record) : forall st,
  ~ In field (Dict.keys data) ->
  Dict.get field (snd (fold_left (fun st fv => standalone_step st (fst fv) (snd fv))
                                 data st))
  = Dict.get field (snd st).
Proof.
  induction data as [|[f v] data IH]; intros st Hnot; cbn [fold_left]; [reflexivity|].
  cbn in Hnot. rewrite IH by tauto.
  unfold standalone_step. cbn [fst snd].
  destruct (is_standalone_pii f v); [|reflexivity].
  cbn [snd]. apply get_set_other. tauto.
Qed.

(** The first loop stores the mask of every field that passes the standalone
    test. *)
Lemma standalone_fold_mask (field : string) (v : value) (data : record) : forall st,
  NoDup (Dict.keys data) -> In (field, v) data ->
  is_standalone_pii field v = true ->
  Dict.get field (snd (fold_left (fun st fv => standalone_step st (fst fv) (snd fv))
                                 data st))
  = Some (mask_value field v).
Proof.
  induction data as [|[f w] data IH]; intros st Hnd Hin Hpii; [destruct Hin|].
  cbn [fold_left]. cbn in Hnd. inversion Hnd as [|? ? Hf Hd]; subst.
  destruct Hin as [Heq | Hin].
  - injection Heq as -> ->.
    rewrite standalone_fold_other by exact Hf.
    unfold standalone_step. cbn [fst snd]. rewrite Hpii. cbn [snd].
    apply get_set_same.
  - now apply IH.
Qed.

(** The second loop writes only to fields that have no mask yet. *)
Lemma combinatorial_mask_step_keeps pii_fields field v pii_fields' :
  combinatorial_mask_step pii_fields field v = Ok pii_fields' ->
  (NoDup (Dict.keys pii_fields) -> NoDup (Dict.keys pii_fields'))
  /\ (forall f mask, Dict.get f pii_fields = Some mask ->
                     Dict.get f pii_fields' = Some mask).
Proof.
  unfold combinatorial_mask_step.
  destruct (field_in field combinatorial_fields && truthy v) eqn:Hg; cbn [andb];
    [|intros H; injection H as <-; auto].
  destruct (Dict.mem field pii_fields) eqn:Hmem; cbn [negb];
    [intros H; injection H as <-; auto|].
  assert (Hset : forall x,
    (NoDup (Dict.keys pii_fields) -> NoDup (Dict.keys (Dict.set field x pii_fields)))
    /\ (forall f mask, Dict.get f pii_fields = Some mask ->
                       Dict.get f (Dict.set field x pii_fields) = Some mask)).
  { intros x. split; [apply keys_set_nodup|].
    intros f mask Hget. destruct (String.eqb_spec field f) as [-> | Hne].
    - apply mem_false_get in Hmem. congruence.
    - now rewrite get_set_other. }
  destruct (name_check field v) as [[|] | e]; cbn [bind]; [| |discriminate].
  - intros H; injection H as <-; apply Hset.
  - repeat match goal with
           | |- (if ?b then _ else _) = _ -> _ => destruct b
           end; intros H; injection H as <-; auto.
Qed.

Lemma combinatorial_mask_loop_keeps (data : record) : forall pii_fields pii_fields',
  for_items combinatorial_mask_step pii_fields data = Ok pii_fields' ->
  (NoDup (Dict.keys pii_fields) -> NoDup (Dict.keys pii_fields'))
  /\ (forall f mask, Dict.get f pii_fields = Some mask ->
                     Dict.get f pii_fields' = Some mask).
Proof.
  induction data as [|[f v] data IH]; intros pf pf'; cbn [for_items].
  - intros H; injection H as <-; auto.
  - destruct (combinatorial_mask_step pf f v) as [pf1 | e] eqn:Hstep; cbn [bind];
      [|discriminate].
    intros H. apply combinatorial_mask_step_keeps in Hstep as [Hn1 Hg1].
    apply IH in H as [Hn2 Hg2]. split; auto.
Qed.

Lemma detect_pii_in_record_inv data has_pii pii_fields :
  detect_pii_in_record data = Ok (has_pii, pii_fields) ->
  NoDup (Dict.keys pii_fields)
  /\ (forall field mask,
        Dict.get field (snd (standalone_pass data)) = Some mask ->
        Dict.get field pii_fields = Some mask).
Proof.
  unfold detect_pii_in_record.
  pose proof (standalone_fold_nodup data (false, []) (NoDup_nil _)) as Hnd.
  fold (standalone_pass data) in Hnd.
  destruct (standalone_pass data) as [hs pf]. cbn [snd] in *.
  destruct (has_combinatorial_pii data) as [[|] | e]; cbn [bind]; [| |discriminate].
  - destruct (for_items combinatorial_mask_step pf data) as [pf' | e] eqn:Hloop;
      cbn [bind]; [|discriminate].
    intros H; injection H as <- <-.
    apply combinatorial_mask_loop_keeps in Hloop as [Hn Hg]. auto.
  - intros H; injection H as <- <-. auto.
Qed.

Lemma name_check_ok field v :
  (field = "name" -> truthy v = true -> exists s, v = VStr s) ->
  exists b, name_check field v = Ok b.
Proof.
  intros H. unfold name_check, field_in. cbn [existsb].
  destruct (String.eqb_spec field "name") as [Hf | Hf]; cbn [orb]; [|eauto].
  unfold is_valid_name. destruct (truthy v) eqn:Ht; cbn [negb]; [|eauto].
  destruct (H Hf eq_refl) as [s ->].
  repeat match goal with
         | |- exists _, (if ?b then _ else _) = _ => destruct b
         end; eauto.
Qed.

Lemma combinatorial_loop_ok (data : record) :
  (forall f v, In (f, v) data -> exists b, name_check f v = Ok b) ->
  forall present, exists present', for_items combinatorial_step present data = Ok present'.
Proof.
  induction data as [|[f v] data IH]; intros Hok present; cbn [for_items]; [eauto|].
  assert (Hstep : exists st, combinatorial_step present f v = Ok st).
  { unfold combinatorial_step. destruct (truthy v); cbn [negb]; [|eauto].
    destruct (Hok f v (or_introl eq_refl)) as [b ->]. cbn [bind].
    repeat match goal with
           | |- exists _, (if ?b then _ else _) = _ => destruct b
           end; eauto. }
  destruct Hstep as [st ->]. cbn [bind]. apply IH.
  intros f' v' Hin. apply Hok. now right.
Qed.

Lemma combinatorial_mask_loop_ok (data : record) :
  (forall f v, In (f, v) data -> exists b, name_check f v = Ok b) ->
  forall pf, exists pf', for_items combinatorial_mask_step pf data = Ok pf'.
Proof.
  induction data as [|[f v] data IH]; intros Hok pf; cbn [for_items]; [eauto|].
  assert (Hstep : exists st, combinatorial_mask_step pf f v = Ok st).
  { unfold combinatorial_mask_step.
    destruct (field_in f combinatorial_fields && truthy v && negb (Dict.mem f pf));
      [|eauto].
    destruct (Hok f v (or_introl eq_refl)) as [b ->]. cbn [bind].
    repeat match goal with
           | |- exists _, (if ?b then _ else _) = _ => destruct b
           end; eauto. }
  destruct Hstep as [st ->]. cbn [bind]. apply IH.
  intros f' v' Hin. apply Hok. now right.
Qed.

(** [detect_pii_in_record] returns whenever the name values are texts. *)
Lemma detect_pii_in_record_returns data :
  names_are_text data ->
  exists has_pii pii_fields, detect_pii_in_record data = Ok (has_pii, pii_fields).
Proof.
  intros Hnames.
  assert (Hok : forall f v, In (f, v) data -> exists b, name_check f v = Ok b).
  { intros f v Hin. apply name_check_ok. intros -> Ht. now apply Hnames. }
  unfold detect_pii_in_record, has_combinatorial_pii, pii_fields_present.
  destruct (standalone_pass data) as [hs pf].
  destruct (combinatorial_loop_ok data Hok []) as [present ->]. cbn [bind].
  destruct (2 <=? length present); cbn [bind]; [|eauto].
  destruct (combinatorial_mask_loop_ok data Hok pf) as [pf' ->]. cbn [bind]. eauto.
Qed.

(** C6: [detect_pii_in_record] returns on every record whose name values are
    texts, and whenever it returns, the masked-field mapping has every field
    at most once and maps each field masked by the first loop to the mask that
    loop stored, which for a field passing the standalone test is the mask of
    its value: the second loop has not written to it. *)
Theorem first_writer_wins (data : record) :
  (names_are_text data ->
   exists has_pii pii_fields, detect_pii_in_record data = Ok (has_pii, pii_fields))
  /\ (forall has_pii pii_fields,
        detect_pii_in_record data = Ok (has_pii, pii_fields) ->
        NoDup (Dict.keys pii_fields)
        /\ (forall field mask,
              Dict.get field (snd (standalone_pass data)) = Some mask ->
              Dict.get field pii_fields = Some mask)
        /\ (NoDup (Dict.keys data) ->
            forall field v,
              In (field, v) data -> is_standalone_pii field v = true ->
              Dict.get field pii_fields = Some (mask_value field v))).
Proof.
  split; [apply detect_pii_in_record_returns|].
  intros has_pii pii_fields Hd.
  destruct (detect_pii_in_record_inv _ _ _ Hd) as [Hn Hg].
  repeat split; auto.
  intros Hnd field v Hin Hpii. apply Hg.
  unfold standalone_pass. now apply standalone_fold_mask.
Qed.

Lemma first_writer_wins_witness :
  exists has_pii pii_fields,
    detect_pii_in_record sample_record = Ok (has_pii, pii_fields)
    /\ Dict.get "phone" pii_fields = Some "98XXXXXX10".
Proof.
  exists true,
    [("email", "jXXX@example.com"); ("phone", "98XXXXXX10");
     ("name", "JXXX SXXXX"); ("device_id", "[REDACTED]")].
  assert (H : detect_pii_in_record sample_record
              = Ok (true, [("email", "jXXX@example.com"); ("phone", "98XXXXXX10");
                           ("name", "JXXX SXXXX"); ("device_id", "[REDACTED]")]))
    by (vm_compute; reflexivity).
  split; [exact H|].
  change (Some "98XXXXXX10") with (Some (mask_value "phone" (VStr "9876543210"))).
  apply (proj2 (proj2 (proj2 (first_writer_wins sample_record) _ _ H))).
  - repeat constructor; cbn; intuition discriminate.
  - cbn. auto.
  - vm_compute. reflexivity.
Defined.

(** ** Re-serialization of a redacted record *)

Lemma redact_step_keys (rd : record) fm :
  Dict.keys (redact_step rd fm) = Dict.keys rd.
Proof.
  unfold redact_step. destruct (Dict.mem (fst fm) rd) eqn:Hm; [|reflexivity].
  now apply keys_set_present.
Qed.

Lemma redact_step_other (rd : record) fm field :
  fst fm <> field -> Dict.get field (redact_step rd fm) = Dict.get field rd.
Proof.
  intros Hne. unfold redact_step. destruct (Dict.mem (fst fm) rd); [|reflexivity].
  now apply get_set_other.
Qed.

Lemma redact_record_keys pii_fields : forall data : record,
  Dict.keys (redact_record data pii_fields) = Dict.keys data.
Proof.
  unfold redact_record.
  induction pii_fields as [|fm pf IH]; intros data; cbn [fold_left]; [reflexivity|].
  rewrite IH. apply redact_step_keys.
Qed.

(** A field without a mask keeps its value. *)
Lemma redact_record_other field pii_fields : forall data : record,
  Dict.mem field pii_fields = false ->
  Dict.get field (redact_record data pii_fields) = Dict.get field data.
Proof.
  unfold redact_record, Dict.mem.
  induction pii_fields as [|[k m] pf IH]; intros data; cbn [fold_left Dict.get];
    [reflexivity|].
  destruct (String.eqb_spec k field) as [-> | Hne]; [discriminate|].
  intros H. rewrite (IH _ H). now apply redact_step_other.
Qed.

(** A field of the record with a mask gets the mask as its value. *)
Lemma redact_record_masked field mask pii_fields : forall data : record,
  NoDup (Dict.keys pii_fields) ->
  Dict.get field pii_fields = Some mask -> Dict.mem field data = true ->
  Dict.get field (redact_record data pii_fields) = Some (VStr mask).
Proof.
  induction pii_fields as [|[k m] pf IH]; intros data Hnd; cbn [Dict.get];
    [discriminate|].
  cbn in Hnd. inversion Hnd as [|? ? Hk Hpf]; subst.
  change (redact_record data ((k, m) :: pf))
    with (redact_record (redact_step data (k, m)) pf).
  destruct (String.eqb_spec k field) as [-> | Hne].
  - intros H Hmem. injection H as ->.
    rewrite redact_record_other.
    + unfold redact_step. cbn [fst snd]. rewrite Hmem. apply get_set_same.
    + apply mem_false_get. destruct (Dict.get field pf) eqn:Hg; [|reflexivity].
      exfalso. apply Hk. apply get_in_keys. congruence.
  - intros H Hmem. apply IH; [exact Hpf | exact H |].
    unfold Dict.mem. rewrite redact_step_other by exact Hne. exact Hmem.
Qed.

(** C9: when PII is detected on a decoded record, the record handed to the
    serializer has the fields of the decoded record, in their order; a field
    that is not in the masked-field mapping has its decoded value, and a field
    that is in it has its mask. *)
Theorem reserialization_frame (data : record) (pii_fields : Dict.dict string) :
  detect_pii_in_record data = Ok (true, pii_fields) ->
  exists redacted_data,
    process_decoded data = (Dumped redacted_data, true)
    /\ Dict.keys redacted_data = Dict.keys data
    /\ (forall field, Dict.mem field pii_fields = false ->
                      Dict.get field redacted_data = Dict.get field data)
    /\ (forall field mask,
          Dict.get field pii_fields = Some mask -> Dict.mem field data = true ->
          Dict.get field redacted_data = Some (VStr mask)).
Proof.
  intros Hd. exists (redact_record data pii_fields).
  unfold process_decoded. rewrite Hd.
  split; [reflexivity|]. split; [apply redact_record_keys|]. split.
  - intros field. apply redact_record_other.
  - intros field mask. apply redact_record_masked.
    now destruct (detect_pii_in_record_inv _ _ _ Hd).
Qed.

Lemma reserialization_frame_witness :
  exists redacted_data,
    process_decoded order_record = (Dumped redacted_data, true)
    /\ Dict.keys redacted_data = ["order_id"; "phone"; "city"]
    /\ (forall field, Dict.mem field [("phone", "98XXXXXX10")] = false ->
                      Dict.get field redacted_data = Dict.get field order_record)
    /\ (forall field mask,
          Dict.get field [("phone", "98XXXXXX10")] = Some mask ->
          Dict.mem field order_record = true ->
          Dict.get field redacted_data = Some (VStr mask)).
Proof.
  apply (reserialization_frame order_record [("phone", "98XXXXXX10")]).
  vm_compute. reflexivity.
Defined.

(** * Further properties of the detector *)

(** ** Phone and national-id values in any field *)

Lemma phone_pattern_ten_digits v :
  String.length v = 10 -> all_chars is_digit v = true ->
  matches phone_pattern v = true.
Proof.
  intros L D.
  do 10 (destruct v as [|? v]; [discriminate L|]).
  destruct v; [clear L | discriminate L].
  cbn [all_chars] in D.
  repeat match type of D with
         | _ && _ = true => let D' := fresh "D" in apply andb_true_iff in D as [D' D]
         end.
  clear D. digit_facts.
  unfold matches, re_match, match_here, phone_pattern, times.
  cbn [seq m]. rewrite rep_exact.
  cbn [word_before word_after run_length take drop last_char Nat.leb Nat.add
       m accept xorb].
  use_char_facts.
  cbn [word_before word_after run_length take drop last_char Nat.leb Nat.add
       m accept xorb].
  use_char_facts. reflexivity.
Qed.

(** X1: a text of exactly 10 digits is recognised by its value: in every
    field it passes the standalone test and is masked as a phone number,
    first two digits, six [X], last two digits. *)
Theorem phone_value_any_field (field v : string) :
  String.length v = 10 -> all_chars is_digit v = true ->
  is_standalone_pii field (VStr v) = true
  /\ mask_value field (VStr v) = take 2 v ++ "XXXXXX" ++ drop 8 v.
Proof.
  intros L D.
  pose proof (phone_pattern_ten_digits v L D) as Hm.
  pose proof (strip_digits v D) as Hs.
  split.
  - unfold is_standalone_pii. cbn [py_str]. rewrite Hs, L, Hm.
    destruct v as [|a v]; [discriminate|].
    rewrite truthy_nonempty. cbn [negb orb Nat.ltb Nat.leb].
    now rewrite orb_true_r.
  - unfold mask_value. cbn [py_str]. rewrite Hs, L, Hm.
    rewrite orb_true_r. unfold last_n. rewrite L. reflexivity.
Qed.

Lemma phone_value_any_field_witness :
  is_standalone_pii "customer_note" (VStr "9876543210") = true
  /\ mask_value "customer_note" (VStr "9876543210") = "98XXXXXX10".
Proof.
  apply (phone_value_any_field "customer_note" "9876543210"); reflexivity.
Defined.

Lemma digit_not_gap c : is_digit c = true -> space_or_hyphen c = false.
Proof. each_char c. Qed.

Ltac gap_facts :=
  repeat match goal with
         | H : is_digit ?c = true |- _ =>
             lazymatch goal with
             | _ : space_or_hyphen c = false |- _ => fail
             | _ => pose proof (digit_not_gap c H)
             end
         end.

Ltac run_matcher :=
  repeat first
    [ rewrite rep_exact
    | progress cbn [word_before word_after run_length take drop last_char
                    Nat.leb Nat.add m accept xorb rep rep_stop hi_open dec_hi
                    pred andb opt]
    | progress use_char_facts ].

(** What the patterns make of a 12-digit national id. *)
Lemma aadhar_text_patterns g1 gap1 g2 gap2 g3 :
  four_digits g1 -> four_digits g2 -> four_digits g3 ->
  gap_ok gap1 -> gap_ok gap2 ->
  strip (aadhar_text g1 gap1 g2 gap2 g3) = aadhar_text g1 gap1 g2 gap2 g3
  /\ matches phone_pattern (aadhar_text g1 gap1 g2 gap2 g3) = false
  /\ matches aadhar_pattern (aadhar_text g1 gap1 g2 gap2 g3) = true
  /\ 12 <= String.length (aadhar_text g1 gap1 g2 gap2 g3).
Proof.
  intros H1 H2 H3 Hg1 Hg2.
  four_chars g1 H1. four_chars g2 H2. four_chars g3 H3. digit_facts. gap_facts.
  assert (Hx : forall gap, gap_ok gap ->
            match gap with Some c => is_digit c = false | None => True end).
  { intros [c|] Hgap; [now apply gap_not_digit | exact I]. }
  pose proof (Hx _ Hg1) as Hd1. pose proof (Hx _ Hg2) as Hd2. clear Hx.
  unfold aadhar_text.
  destruct gap1 as [x|], gap2 as [y|]; cbn [gap_text append gap_ok] in *;
    (split; [unfold strip; cbn [lstrip_by]; use_char_facts;
             eapply (rstrip_by_last _ _ None); [discriminate | reflexivity | assumption]|]);
    (split; [unfold matches, re_match, match_here, phone_pattern, times;
             cbn [seq m]; run_matcher; reflexivity|]);
    (split; [unfold matches, re_match, match_here, aadhar_pattern, times;
             cbn [seq m]; run_matcher; reflexivity|]);
    cbn [String.length]; lia.
Qed.

(** X2: a 12-digit national id, grouped 4-4-4 or not, passes the standalone
    test in every field; in a field that is none of [phone], [aadhar],
    [name], [first_name], [last_name] and [email] its mask is the generic
    token. *)
Theorem aadhar_value_any_field (field : string) g1 gap1 g2 gap2 g3 :
  four_digits g1 -> four_digits g2 -> four_digits g3 ->
  gap_ok gap1 -> gap_ok gap2 ->
  is_standalone_pii field (VStr (aadhar_text g1 gap1 g2 gap2 g3)) = true
  /\ (field_in field ["phone"; "aadhar"; "name"; "first_name"; "last_name"; "email"]
      = false ->
      mask_value field (VStr (aadhar_text g1 gap1 g2 gap2 g3)) = redacted_token).
Proof.
  intros H1 H2 H3 Hg1 Hg2.
  destruct (aadhar_text_patterns g1 gap1 g2 gap2 g3 H1 H2 H3 Hg1 Hg2)
    as (Hs & Hp & Ha & Hl).
  split.
  - unfold is_standalone_pii. cbn [py_str]. rewrite Hs, Hp, Ha.
    destruct (aadhar_text g1 gap1 g2 gap2 g3) as [|a t] eqn:Ht;
      [cbn in Hl; lia|].
    rewrite truthy_nonempty.
    assert (Hlt : (String.length (String a t) <? 3) = false)
      by (apply Nat.ltb_ge; lia).
    rewrite Hlt. cbn [negb orb]. rewrite !orb_false_r, orb_true_r.
    destruct (field =? "phone")%string; reflexivity.
  - intros Hf. unfold field_in in Hf. cbn [existsb] in Hf.
    repeat (apply orb_false_iff in Hf as [?E Hf]).
    unfold mask_value. cbn [py_str]. rewrite Hs, Hp.
    unfold field_in. cbn [existsb]. rewrite E, E0, E1, E2, E3, E4.
    reflexivity.
Qed.

Lemma aadhar_value_any_field_witness :
  is_standalone_pii "id_number" (VStr "1234 5678 9012") = true
  /\ mask_value "id_number" (VStr "1234 5678 9012") = "[REDACTED]".
Proof.
  assert (H4 : forall g, String.length g = 4 -> all_chars is_digit g = true ->
                         four_digits g) by (intros g L D; split; assumption).
  destruct (aadhar_value_any_field "id_number" "1234" (Some " "%char) "5678"
              (Some " "%char) "9012"
              (H4 "1234" eq_refl eq_refl) (H4 "5678" eq_refl eq_refl)
              (H4 "9012" eq_refl eq_refl) eq_refl eq_refl) as [Hs Hm].
  split; [exact Hs | apply Hm; reflexivity].
Defined.

(** ** What the combinatorial test counts *)

Lemma field_in_app f l1 l2 : field_in f (l1 ++ l2) = field_in f l1 || field_in f l2.
Proof. unfold field_in. apply existsb_app. Qed.

Lemma name_check_true field v : name_check field v = Ok true -> field = "name".
Proof.
  unfold name_check, field_in. cbn [existsb].
  destruct (String.eqb_spec field "name"); [auto | discriminate].
Qed.

Lemma name_part_field f :
  field_in f ["first_name"; "last_name"] = true ->
  f = "first_name" \/ f = "last_name".
Proof.
  unfold field_in. cbn [existsb].
  destruct (String.eqb_spec f "first_name"); [auto|].
  destruct (String.eqb_spec f "last_name"); [auto | discriminate].
Qed.

Ltac step_done :=
  split; [reflexivity|];
  split; [rewrite ?List.length_app; cbn [length]; lia|];
  rewrite ?field_in_app;
  repeat match goal with
         | |- context [field_in "name_parts" [?l]] =>
             change (field_in "name_parts" [l]) with false
         end;
  rewrite ?orb_false_r; try reflexivity.

(** One step of the loop, when the name test returns. *)
Lemma combinatorial_step_counts present f v b :
  name_check f v = Ok b ->
  exists present',
    combinatorial_step present f v = Ok present'
    /\ length present'
       = length present + (if single_signal f v then 1 else 0)
         + (if name_part_signal f v && negb (field_in "name_parts" present)
            then 1 else 0)
    /\ field_in "name_parts" present'
       = field_in "name_parts" present || name_part_signal f v.
Proof.
  intros Hb. unfold combinatorial_step, single_signal, name_part_signal.
  rewrite Hb. destruct (truthy v); cbn [negb andb bind];
    [|exists present; step_done].
  destruct b.
  - apply name_check_true in Hb. subst f.
    exists (present ++ ["name"])%list. cbn [orb].
    change (field_in "name" ["first_name"; "last_name"]) with false.
    cbn [andb]. step_done.
  - cbn [orb].
    destruct (field_in f ["first_name"; "last_name"]) eqn:Hnp; cbn [andb].
    + assert (Hother : (f =? "email")%string = false
                       /\ (f =? "address")%string = false
                       /\ field_in f ["device_id"; "ip_address"] = false).
      { destruct (name_part_field f Hnp) as [-> | ->]; repeat split; reflexivity. }
      destruct Hother as (-> & -> & ->). cbn [andb orb].
      destruct (2 <=? String.length (strip (py_str v))).
      * destruct (field_in "name_parts" present) eqn:Hin; cbn [negb andb].
        -- exists present. rewrite Hin. step_done.
        -- exists (present ++ ["name_parts"])%list. rewrite ?Hin.
           split; [reflexivity|].
           split; [rewrite List.length_app; cbn [length]; lia|].
           rewrite field_in_app, Hin. reflexivity.
      * cbn [andb]. exists present. step_done.
    + destruct ((f =? "email")%string && is_valid_email v); cbn [orb].
      { exists (present ++ ["email"])%list. step_done. }
      destruct ((f =? "address")%string && is_valid_address v); cbn [orb].
      { exists (present ++ ["address"])%list. step_done. }
      destruct (field_in f ["device_id"; "ip_address"]
                && (5 <=? String.length (strip (py_str v)))).
      { exists (present ++ ["device_info"])%list. step_done. }
      exists present. step_done.
Qed.

Lemma combinatorial_loop_counts (data : record) :
  (forall f v, In (f, v) data -> exists b, name_check f v = Ok b) ->
  forall present,
  exists present',
    for_items combinatorial_step present data = Ok present'
    /\ length present'
       = length present
         + length (filter (fun fv => single_signal (fst fv) (snd fv)) data)
         + (if negb (field_in "name_parts" present)
               && existsb (fun fv => name_part_signal (fst fv) (snd fv)) data
            then 1 else 0)
    /\ field_in "name_parts" present'
       = field_in "name_parts" present
         || existsb (fun fv => name_part_signal (fst fv) (snd fv)) data.
Proof.
  induction data as [|[f v] data IH]; intros Hok present.
  - exists present. cbn. rewrite andb_false_r, orb_false_r.
    split; [reflexivity | split; [lia | reflexivity]].
  - destruct (Hok f v (or_introl eq_refl)) as [b Hb].
    destruct (combinatorial_step_counts present f v b Hb)
      as (present1 & Hstep & Hlen1 & Hin1).
    destruct (IH (fun f' v' H => Hok f' v' (or_intror H)) present1)
      as (present' & Hloop & Hlen & Hin).
    exists present'. cbn [for_items]. rewrite Hstep. cbn [bind].
    split; [exact Hloop|].
    cbn [filter existsb fst snd]. rewrite Hlen, Hin, Hlen1, Hin1.
    split.
    + destruct (single_signal f v), (name_part_signal f v),
        (field_in "name_parts" present),
        (existsb (fun fv => name_part_signal (fst fv) (snd fv)) data);
        cbn [negb andb orb length]; lia.
    + now rewrite orb_assoc.
Qed.

(** X3: on a record whose name values are texts, [has_combinatorial_pii]
    answers true exactly when the fields that qualify under [name], [email],
    [address], [device_id] and [ip_address], counted one each, plus one if
    any of [first_name] and [last_name] qualifies, are at least two. *)
Theorem has_combinatorial_pii_counts (data : record) :
  names_are_text data ->
  has_combinatorial_pii data = Ok (2 <=? signal_count data).
Proof.
  intros Hnames.
  assert (Hok : forall f v, In (f, v) data -> exists b, name_check f v = Ok b).
  { intros f v Hin. apply name_check_ok. intros -> Ht. now apply Hnames. }
  destruct (combinatorial_loop_counts data Hok []) as (present & Hloop & Hlen & _).
  unfold has_combinatorial_pii, pii_fields_present. rewrite Hloop. cbn [bind].
  rewrite Hlen. reflexivity.
Qed.

Lemma has_combinatorial_pii_counts_witness :
  has_combinatorial_pii
    [("first_name", VStr "Asha"); ("last_name", VStr "Rao"); ("city", VStr "Pune");
     ("device_id", VStr "dev-001")]
  = Ok true.
Proof.
  rewrite has_combinatorial_pii_counts; [reflexivity|].
  intros v Hin. cbn in Hin.
  repeat (destruct Hin as [Hin | Hin]; [discriminate Hin|]). destruct Hin.
Defined.

(** ** A name value that is not a text *)

Lemma is_valid_name_raises v :
  truthy v = true -> (forall s, v <> VStr s) -> is_valid_name v = Raise AttributeError.
Proof.
  intros Ht Hns. unfold is_valid_name. rewrite Ht. cbn [negb].
  destruct v; try reflexivity. now destruct (Hns s).
Qed.

Lemma combinatorial_loop_raises (data : record) v :
  In ("name", v) data -> truthy v = true -> (forall s, v <> VStr s) ->
  forall present, for_items combinatorial_step present data = Raise AttributeError.
Proof.
  intros Hin Ht Hns. induction data as [|[f w] data IH]; intros present;
    [destruct Hin|].
  cbn [for_items]. destruct Hin as [Heq | Hin].
  - injection Heq as -> ->. unfold combinatorial_step. rewrite Ht. cbn [negb].
    unfold name_check. change (field_in "name" ["name"]) with true. cbv iota.
    now rewrite (is_valid_name_raises v Ht Hns).
  - destruct (combinatorial_step present f w) as [st | []]; cbn [bind];
      [now apply IH | reflexivity].
Qed.

(** X4: when a [name] field holds a true value that is not a text (a
    number, [true], a list, an object), [detect_pii_in_record] ends with
    [AttributeError] whatever the other fields hold, and the row is written
    as an empty object flagged as not PII. *)
Theorem non_text_name_drops_record (data : record) (v : value) :
  In ("name", v) data -> truthy v = true -> (forall s, v <> VStr s) ->
  detect_pii_in_record data = Raise AttributeError
  /\ process_decoded data = (EmptyObject, false).
Proof.
  intros Hin Ht Hns.
  assert (Hd : detect_pii_in_record data = Raise AttributeError).
  { unfold detect_pii_in_record, has_combinatorial_pii, pii_fields_present.
    destruct (standalone_pass data) as [hs pf].
    now rewrite (combinatorial_loop_raises data v Hin Ht Hns). }
  split; [exact Hd|]. unfold process_decoded. now rewrite Hd.
Qed.

Lemma non_text_name_drops_record_witness :
  process_decoded [("phone", VStr "9876543210"); ("name", VInt 42)]
  = (EmptyObject, false).
Proof.
  apply (non_text_name_drops_record
           [("phone", VStr "9876543210"); ("name", VInt 42)] (VInt 42)).
  - right. left. reflexivity.
  - reflexivity.
  - intros s H. discriminate H.
Defined.

(** ** What the masked-field mapping holds *)

Lemma keys_set_in {V : Type} (k f : string) (x : V) (d : Dict.dict V) :
  In k (Dict.keys (Dict.set f x d)) -> k = f \/ In k (Dict.keys d).
Proof.
  destruct (Dict.mem f d) eqn:Hm.
  - rewrite keys_set_present by exact Hm. auto.
  - rewrite keys_set_absent by exact Hm. rewrite in_app_iff. cbn.
    intros [H | [H | []]]; auto.
Qed.

Lemma is_standalone_pii_truthy field v :
  is_standalone_pii field v = true -> truthy v = true.
Proof.
  unfold is_standalone_pii. destruct (truthy v); [reflexivity | discriminate].
Qed.

Lemma masked_from_set data pf f v x :
  masked_from data pf -> In (f, v) data -> truthy v = true ->
  is_standalone_pii f v = true \/ field_in f combinatorial_fields = true ->
  masked_from data (Dict.set f x pf).
Proof.
  intros Hpf Hin Ht Hwhy k Hk. apply keys_set_in in Hk as [-> | Hk].
  - exists v. auto.
  - now apply Hpf.
Qed.

Lemma standalone_fold_masked_from (data d : record) : forall st,
  (forall fv, In fv d -> In fv data) ->
  masked_from data (snd st) ->
  masked_from data
    (snd (fold_left (fun st fv => standalone_step st (fst fv) (snd fv)) d st)).
Proof.
  induction d as [|[f v] d IH]; intros st Hsub Hst; cbn [fold_left]; [exact Hst|].
  apply IH; [intros fv H; apply Hsub; now right|].
  unfold standalone_step. cbn [fst snd].
  destruct (is_standalone_pii f v) eqn:Hp; [|exact Hst]. cbn [snd].
  apply (masked_from_set data (snd st) f v); auto.
  - apply Hsub. now left.
  - exact (is_standalone_pii_truthy f v Hp).
Qed.

Lemma combinatorial_mask_step_masked_from data pf f v pf' :
  In (f, v) data -> masked_from data pf ->
  combinatorial_mask_step pf f v = Ok pf' -> masked_from data pf'.
Proof.
  intros Hin Hpf. unfold combinatorial_mask_step.
  destruct (field_in f combinatorial_fields) eqn:Hf; cbn [andb];
    [|intros H; injection H as <-; exact Hpf].
  destruct (truthy v) eqn:Ht; cbn [andb];
    [|intros H; injection H as <-; exact Hpf].
  destruct (negb (Dict.mem f pf)); [|intros H; injection H as <-; exact Hpf].
  assert (Hset : forall x, masked_from data (Dict.set f x pf))
    by (intros x; apply (masked_from_set data pf f v); auto).
  destruct (name_check f v) as [[|] | e]; cbn [bind]; [| |discriminate].
  - intros H; injection H as <-; apply Hset.
  - repeat match goal with
           | |- (if ?b then _ else _) = _ -> _ => destruct b
           end; intros H; injection H as <-; auto.
Qed.

Lemma combinatorial_mask_loop_masked_from (data d : record) : forall pf pf',
  (forall fv, In fv d -> In fv data) ->
  masked_from data pf ->
  for_items combinatorial_mask_step pf d = Ok pf' -> masked_from data pf'.
Proof.
  induction d as [|[f v] d IH]; intros pf pf' Hsub Hpf; cbn [for_items].
  - intros H; injection H as <-; exact Hpf.
  - destruct (combinatorial_mask_step pf f v) as [pf1 | e] eqn:Hstep; cbn [bind];
      [|discriminate].
    apply IH; [intros fv H; apply Hsub; now right|].
    apply (combinatorial_mask_step_masked_from data pf f v); auto.
    apply Hsub. now left.
Qed.

Lemma in_dict_mem {V : Type} (k : string) (v : V) (d : Dict.dict V) :
  In (k, v) d -> Dict.mem k d = true.
Proof.
  intros Hin. apply mem_true_get.
  destruct (Dict.get k d) as [x|] eqn:Hg; [eauto|].
  exfalso. assert (Hk : In k (Dict.keys d)).
  { change k with (fst (k, v)). now apply in_map. }
  apply get_in_keys in Hk. contradiction.
Qed.

(** X5: every field of the masked-field mapping is a field of the record
    with a true value, and it either passes the standalone test or is one of
    the seven combinatorial fields; so the membership test of the redaction
    loop in [process_csv_file] holds for every masked field. *)
Theorem masked_fields_come_from_record (data : record) has_pii pii_fields :
  detect_pii_in_record data = Ok (has_pii, pii_fields) ->
  masked_from data pii_fields
  /\ (forall field, In field (Dict.keys pii_fields) -> Dict.mem field data = true).
Proof.
  intros Hd.
  assert (Hm : masked_from data pii_fields).
  { revert Hd. unfold detect_pii_in_record.
    pose proof (standalone_fold_masked_from data data (false, [])
                  (fun fv H => H)) as H1.
    fold (standalone_pass data) in H1.
    destruct (standalone_pass data) as [hs pf]. cbn [snd] in H1.
    assert (Hpf : masked_from data pf) by (apply H1; intros k []).
    destruct (has_combinatorial_pii data) as [[|] | e]; cbn [bind]; [| |discriminate].
    - destruct (for_items combinatorial_mask_step pf data) as [pf' | e] eqn:Hloop;
        cbn [bind]; [|discriminate].
      intros H; injection H as _ <-.
      apply (combinatorial_mask_loop_masked_from data data pf); auto.
    - intros H; injection H as _ <-. exact Hpf. }
  split; [exact Hm|].
  intros field Hk. destruct (Hm field Hk) as (v & Hin & _).
  now apply in_dict_mem with v.
Qed.

Lemma masked_fields_come_from_record_witness :
  Dict.mem "device_id" sample_record = true.
Proof.
  apply (proj2 (masked_fields_come_from_record sample_record true
                  [("email", "jXXX@example.com"); ("phone", "98XXXXXX10");
                   ("name", "JXXX SXXXX"); ("device_id", "[REDACTED]")]
                  ltac:(vm_compute; reflexivity))).
  cbn. auto.
Defined.

(** ** The flag and the mapping agree *)

Lemma set_nonempty {V : Type} (k : string) (x : V) (d : Dict.dict V) :
  Dict.set k x d <> [].
Proof.
  destruct d as [|[k' v'] d]; cbn [Dict.set]; [intros H; discriminate H|].
  destruct (String.eqb k' k); intros H; discriminate H.
Qed.

Lemma standalone_fold_flag (d : record) : forall st,
  (fst st = true <-> snd st <> []) ->
  let st' := fold_left (fun st fv => standalone_step st (fst fv) (snd fv)) d st in
  fst st' = true <-> snd st' <> [].
Proof.
  induction d as [|[f v] d IH]; intros st Hst; cbn [fold_left]; [exact Hst|].
  apply IH. unfold standalone_step. cbn [fst snd].
  destruct (is_standalone_pii f v); [|exact Hst]. cbn [fst snd].
  split; [intros _ | reflexivity].
  apply set_nonempty.
Qed.

Lemma nonempty_kept (pf pf' : Dict.dict string) :
  (forall f mask, Dict.get f pf = Some mask -> Dict.get f pf' = Some mask) ->
  pf <> [] -> pf' <> [].
Proof.
  intros Hkeep Hne. destruct pf as [|[k m] pf]; [contradiction|].
  specialize (Hkeep k m). cbn in Hkeep. rewrite String.eqb_refl in Hkeep.
  specialize (Hkeep eq_refl). intros ->. discriminate.
Qed.

(** When the first loop returns, every name test of the record returns. *)
Lemma combinatorial_loop_ok_inv (data : record) : forall present present',
  for_items combinatorial_step present data = Ok present' ->
  forall f v, In (f, v) data -> exists b, name_check f v = Ok b.
Proof.
  induction data as [|[f v] data IH]; intros present present' Hloop f' v' Hin;
    [destruct Hin|].
  cbn [for_items] in Hloop.
  destruct (combinatorial_step present f v) as [st | e] eqn:Hstep; cbn [bind] in Hloop;
    [|discriminate].
  destruct Hin as [Heq | Hin]; [|exact (IH _ _ Hloop _ _ Hin)].
  injection Heq as <- <-. unfold combinatorial_step in Hstep.
  destruct (truthy v) eqn:Ht; cbn [negb] in Hstep.
  - destruct (name_check f v) as [b | e]; [eauto | discriminate].
  - apply name_check_ok. intros _ Ht'. congruence.
Qed.

Lemma signal_field f v :
  single_signal f v = true \/ name_part_signal f v = true ->
  truthy v = true /\ field_in f combinatorial_fields = true.
Proof.
  unfold single_signal, name_part_signal, name_check, field_in, combinatorial_fields.
  cbn [existsb]. destruct (truthy v); cbn [andb]; [|intros [H | H]; discriminate].
  intros H. split; [reflexivity|].
  destruct (f =? "name")%string; [reflexivity|].
  destruct (f =? "first_name")%string; [reflexivity|].
  destruct (f =? "last_name")%string; [reflexivity|].
  destruct (f =? "email")%string; [reflexivity|].
  destruct (f =? "address")%string; [reflexivity|].
  destruct (f =? "device_id")%string; [reflexivity|].
  destruct (f =? "ip_address")%string; [reflexivity|].
  cbn in H. destruct H; discriminate.
Qed.

(** The second loop leaves a field with a signal masked. *)
Lemma combinatorial_mask_step_covers pf f v pf' :
  single_signal f v = true \/ name_part_signal f v = true ->
  combinatorial_mask_step pf f v = Ok pf' -> Dict.mem f pf' = true.
Proof.
  intros Hsig. destruct (signal_field f v Hsig) as [Ht Hf].
  unfold combinatorial_mask_step. rewrite Hf, Ht. cbn [andb].
  destruct (Dict.mem f pf) eqn:Hm; cbn [negb];
    [intros H; injection H as <-; exact Hm|].
  assert (Hset : forall x, Dict.mem f (Dict.set f x pf) = true).
  { intros x. apply mem_true_get. exists x. apply get_set_same. }
  unfold single_signal, name_part_signal in Hsig. rewrite Ht in Hsig.
  cbn [andb] in Hsig.
  destruct (name_check f v) as [[|] | e]; cbn [bind]; [| |discriminate].
  - intros H; injection H as <-; apply Hset.
  - cbn [orb] in Hsig.
    destruct (field_in f ["first_name"; "last_name"]
              && (2 <=? String.length (strip (py_str v))));
      [intros H; injection H as <-; apply Hset|].
    destruct ((f =? "email")%string && is_valid_email v);
      [intros H; injection H as <-; apply Hset|].
    destruct ((f =? "address")%string && is_valid_address v);
      [intros H; injection H as <-; apply Hset|].
    cbn [orb] in Hsig.
    destruct Hsig as [Hsig | Hsig]; [|discriminate].
    apply andb_true_iff in Hsig as [Hdev _]. rewrite Hdev.
    intros H; injection H as <-; apply Hset.
Qed.

Lemma combinatorial_mask_loop_covers (data : record) f v : forall pf pf',
  In (f, v) data ->
  single_signal f v = true \/ name_part_signal f v = true ->
  for_items combinatorial_mask_step pf data = Ok pf' -> Dict.mem f pf' = true.
Proof.
  induction data as [|[f0 v0] data IH]; intros pf pf' Hin Hsig; [destruct Hin|].
  cbn [for_items].
  destruct (combinatorial_mask_step pf f0 v0) as [pf1 | e] eqn:Hstep; cbn [bind];
    [|discriminate].
  intros Hloop. destruct Hin as [Heq | Hin]; [|exact (IH _ _ Hin Hsig Hloop)].
  injection Heq as -> ->.
  pose proof (combinatorial_mask_step_covers _ _ _ _ Hsig Hstep) as Hm.
  apply mem_true_get in Hm as [x Hx].
  apply combinatorial_mask_loop_keeps in Hloop as [_ Hkeep].
  apply mem_true_get. exists x. now apply Hkeep.
Qed.

Lemma signal_count_positive (data : record) :
  1 <= signal_count data ->
  exists f v, In (f, v) data
              /\ (single_signal f v = true \/ name_part_signal f v = true).
Proof.
  unfold signal_count. intros H.
  destruct (existsb (fun fv => name_part_signal (fst fv) (snd fv)) data) eqn:Hnp.
  - apply existsb_exists in Hnp as ([f v] & Hin & Hs). exists f, v. auto.
  - destruct (filter (fun fv => single_signal (fst fv) (snd fv)) data)
      as [|[f v] l] eqn:Hfl; [cbn in H; lia|].
    assert (Hin : In (f, v) (filter (fun fv => single_signal (fst fv) (snd fv)) data))
      by (rewrite Hfl; now left).
    apply filter_In in Hin as [Hin Hs]. exists f, v. auto.
Qed.

(** X6: whenever [detect_pii_in_record] returns, its flag is true exactly
    when its mapping has a masked field: a record is never flagged without a
    mask, and never masked without the flag. *)
Theorem flag_iff_masked (data : record) has_pii pii_fields :
  detect_pii_in_record data = Ok (has_pii, pii_fields) ->
  (has_pii = true <-> pii_fields <> []).
Proof.
  unfold detect_pii_in_record, has_combinatorial_pii, pii_fields_present.
  pose proof (standalone_fold_flag data (false, [])) as Hflag.
  cbn [fst snd] in Hflag. fold (standalone_pass data) in Hflag.
  destruct (standalone_pass data) as [hs pf]. cbn [fst snd] in Hflag.
  assert (Hhs : hs = true <-> pf <> []).
  { apply Hflag. split; [discriminate | intros H; now contradiction H]. }
  clear Hflag.
  destruct (for_items combinatorial_step [] data) as [present | e] eqn:Hpres;
    cbn [bind]; [|discriminate].
  pose proof (combinatorial_loop_ok_inv data [] present Hpres) as Hok.
  destruct (combinatorial_loop_counts data Hok []) as (present0 & Hp0 & Hlen & _).
  rewrite Hpres in Hp0. injection Hp0 as <-.
  destruct (2 <=? length present) eqn:Hc.
  - destruct (for_items combinatorial_mask_step pf data) as [pf' | e] eqn:Hloop;
      cbn [bind]; [|discriminate].
    intros H; injection H as <- <-. rewrite orb_true_r.
    split; [intros _ | reflexivity].
    apply Nat.leb_le in Hc.
    destruct (signal_count_positive data) as (f & v & Hin & Hsig).
    { unfold signal_count. cbn [length] in Hlen. cbn [field_in existsb negb andb] in Hlen.
      lia. }
    pose proof (combinatorial_mask_loop_covers data f v pf pf' Hin Hsig Hloop) as Hm.
    intros ->. discriminate Hm.
  - cbn [bind]. intros H; injection H as <- <-. rewrite orb_false_r. exact Hhs.
Qed.

Lemma flag_iff_masked_witness :
  detect_pii_in_record order_record = Ok (true, [("phone", "98XXXXXX10")])
  /\ ([("phone", "98XXXXXX10")] <> ([] : Dict.dict string)).
Proof.
  assert (H : detect_pii_in_record order_record = Ok (true, [("phone", "98XXXXXX10")]))
    by (vm_compute; reflexivity).
  split; [exact H|].
  apply (proj1 (flag_iff_masked order_record true [("phone", "98XXXXXX10")] H)).
  reflexivity.
Defined.

(** ** Name test *)

(** A successful unbounded repetition has read a run of the class and handed
    the rest to its continuation. *)
Lemma rep_inv c k : forall s lo p pv g x,
  rep c lo None k p pv s g = Some x ->
  exists u rest,
    s = u ++ rest /\ all_chars c u = true
    /\ k (p + String.length u) (last_char pv u) rest g = Some x.
Proof.
  induction s as [|a s IH]; intros lo p pv g x; cbn [rep].
  - unfold rep_stop. destruct lo; [|discriminate]. intros H.
    exists "", "". cbn. rewrite Nat.add_0_r. auto.
  - assert (Hstop : rep_stop lo k p pv (String a s) g = Some x ->
                    exists u rest,
                      String a s = u ++ rest /\ all_chars c u = true
                      /\ k (p + String.length u) (last_char pv u) rest g = Some x).
    { unfold rep_stop. destruct lo; [|discriminate]. intros H.
      exists "", (String a s). cbn. rewrite Nat.add_0_r. auto. }
    cbn [hi_open andb]. destruct (c a) eqn:Ha; [|exact Hstop].
    destruct (rep c (pred lo) (dec_hi None) k (S p) (Some a) s g) as [r|] eqn:Hr;
      [|exact Hstop].
    intros H. injection H as ->. cbn [dec_hi] in Hr.
    destruct (IH _ _ _ _ _ Hr) as (u & rest & -> & Hu & Hk).
    exists (String a u), rest. cbn [append all_chars String.length last_char].
    rewrite Ha, Hu. repeat split.
    now replace (p + S (String.length u)) with (S p + String.length u) by lia.
Qed.

Lemma append_empty_r s : s ++ "" = s.
Proof. induction s as [|a s IH]; cbn; [reflexivity | now rewrite IH]. Qed.

Lemma newline_is_space : is_space newline = true.
Proof. reflexivity. Qed.

(** On a word without whitespace, the pattern of [is_valid_name] asks for
    letters and dots only. *)
Lemma name_word_pattern_spec w :
  w <> "" -> all_chars (fun c => negb (is_space c)) w = true ->
  matches name_word_pattern w = all_chars alpha_or_dot w.
Proof.
  intros Hne Hns. unfold matches, re_match, match_here, name_word_pattern.
  cbn [seq m plus Nat.eqb].
  destruct (all_chars alpha_or_dot w) eqn:Hall.
  - destruct (rep_reaches alpha_or_dot
                (fun p' pv' s' g' => m REol accept p' pv' s' g') w 1 0 None "" []
                (0 + String.length w, []) Hall) as [y Hy].
    + destruct w; [contradiction | cbn; lia].
    + reflexivity.
    + rewrite (append_empty_r w) in Hy.
      cbn [m] in Hy. cbn [m]. now rewrite Hy.
  - match goal with
    | |- match ?r with Some _ => true | None => false end = false =>
        destruct r as [x|] eqn:Hr; [|reflexivity]
    end.
    exfalso. apply rep_inv in Hr as (u & rest & -> & Hu & Hk).
    cbn [m] in Hk. rewrite all_chars_app in Hall, Hns.
    rewrite Hu in Hall. cbn [andb] in Hall.
    destruct rest as [|b rest]; [discriminate|].
    destruct rest as [|b' rest]; [|discriminate].
    destruct (Ascii.eqb_spec b newline) as [-> | Hb]; [|discriminate].
    apply andb_true_iff in Hns as [_ Hns]. cbn in Hns. discriminate.
Qed.

Lemma split_ws_lstrip s : split_ws (lstrip_by is_space s) = split_ws s.
Proof.
  induction s as [|a s IH]; [reflexivity|].
  cbn [lstrip_by]. destruct (is_space a) eqn:Ha; [|reflexivity].
  rewrite IH. cbn [split_ws]. now rewrite Ha.
Qed.

Lemma rstrip_by_head p s b r :
  rstrip_by p s = String b r -> exists s', s = String b s'.
Proof.
  destruct s as [|a s]; cbn [rstrip_by]; [discriminate|].
  destruct (rstrip_by p s); [destruct (p a)|]; intros H; try discriminate;
    injection H as -> _; eauto.
Qed.

Lemma split_ws_cons a s :
  is_space a = false ->
  split_ws (String a s)
  = match s with
    | "" => [String a ""]
    | String b _ =>
        if is_space b then String a "" :: split_ws s
        else match split_ws s with
             | w :: ws => String a w :: ws
             | [] => [String a ""]
             end
    end.
Proof. intros Ha. cbn [split_ws]. now rewrite Ha. Qed.

Lemma split_ws_rstrip s : split_ws (rstrip_by is_space s) = split_ws s.
Proof.
  induction s as [|a s IH]; [reflexivity|].
  cbn [rstrip_by]. destruct (rstrip_by is_space s) as [|b r] eqn:Hr.
  - destruct (is_space a) eqn:Ha.
    + cbn [split_ws]. now rewrite Ha.
    + rewrite !(split_ws_cons a _ Ha). cbn [split_ws] in IH.
      destruct s as [|b s]; [reflexivity|].
      rewrite <- IH. now destruct (is_space b).
  - destruct (rstrip_by_head _ _ _ _ Hr) as [s' ->].
    destruct (is_space a) eqn:Ha.
    + cbn [split_ws]. rewrite Ha. exact IH.
    + rewrite !(split_ws_cons a _ Ha), IH. reflexivity.
Qed.

Lemma split_ws_strip s : split_ws (strip s) = split_ws s.
Proof. unfold strip. now rewrite split_ws_rstrip, split_ws_lstrip. Qed.

Lemma split_ws_length s : length (split_ws s) <= String.length s.
Proof.
  induction s as [|a s IH]; [cbn; lia|].
  cbn [String.length]. destruct (is_space a) eqn:Ha.
  - cbn [split_ws]. rewrite Ha. lia.
  - rewrite (split_ws_cons a s Ha). destruct s as [|b s]; [cbn; lia|].
    destruct (is_space b); [cbn [length]; lia|].
    destruct (split_ws (String b s)); cbn [length] in *; lia.
Qed.

(** The words of [split] are not empty and have no whitespace. *)
Lemma split_ws_words s :
  Forall (fun w => w <> "" /\ all_chars (fun c => negb (is_space c)) w = true)
         (split_ws s).
Proof.
  induction s as [|a s IH]; [constructor|].
  destruct (is_space a) eqn:Ha.
  - cbn [split_ws]. now rewrite Ha.
  - rewrite (split_ws_cons a s Ha).
    assert (Hone : String a "" <> ""
                   /\ all_chars (fun c => negb (is_space c)) (String a "") = true).
    { split; [discriminate|]. cbn. now rewrite Ha. }
    destruct s as [|b s]; [constructor; [exact Hone | constructor]|].
    destruct (is_space b); [constructor; [exact Hone | exact IH]|].
    destruct (split_ws (String b s)) as [|w ws];
      [constructor; [exact Hone | constructor]|].
    inversion IH as [|? ? [Hw1 Hw2] Hws]; subst.
    constructor; [|exact Hws].
    split; [discriminate|]. cbn [all_chars]. now rewrite Ha, Hw2.
Qed.

Lemma forallb_name_words s :
  forallb (matches name_word_pattern) (split_ws s)
  = forallb (all_chars alpha_or_dot) (split_ws s).
Proof.
  pose proof (split_ws_words s) as H.
  induction H as [|w ws [Hne Hns] _ IH]; [reflexivity|].
  cbn [forallb]. now rewrite IH, name_word_pattern_spec.
Qed.

(** X7: [is_valid_name] answers false on an empty value, raises
    [AttributeError] on a true value that is not a text, and accepts a text
    exactly when it splits on whitespace into at least two words, each made of
    the letters [A-Z], [a-z] and dots only. *)
Theorem is_valid_name_spec (v : value) :
  (truthy v = false -> is_valid_name v = Ok false)
  /\ (truthy v = true -> (forall s, v <> VStr s) ->
      is_valid_name v = Raise AttributeError)
  /\ (forall s, v = VStr s ->
        is_valid_name v
        = Ok ((2 <=? length (split_ws s))
              && forallb (all_chars alpha_or_dot) (split_ws s))).
Proof.
  split; [|split].
  - intros Ht. unfold is_valid_name. now rewrite Ht.
  - apply is_valid_name_raises.
  - intros s ->. unfold is_valid_name.
    destruct (truthy (VStr s)) eqn:Ht; cbn [negb].
    + rewrite split_ws_strip, forallb_name_words.
      pose proof (split_ws_length (strip s)) as Hlen.
      rewrite split_ws_strip in Hlen.
      destruct (String.length (strip s) <? 2) eqn:H2.
      * apply Nat.ltb_lt in H2.
        destruct (Nat.leb_spec 2 (length (split_ws s))); [lia | reflexivity].
      * destruct (Nat.leb_spec 2 (length (split_ws s))) as [H | H].
        -- apply Nat.ltb_ge in H. now rewrite H.
        -- apply Nat.ltb_lt in H. now rewrite H.
    + cbn [truthy] in Ht. apply negb_false_iff, String.eqb_eq in Ht. now subst s.
Qed.

Lemma is_valid_name_spec_witness :
  is_valid_name (VStr "Dr. John Smith") = Ok true
  /\ is_valid_name (VStr "John123 Smith") = Ok false
  /\ is_valid_name (VInt 7) = Raise AttributeError.
Proof.
  split; [|split].
  - rewrite (proj2 (proj2 (is_valid_name_spec (VStr "Dr. John Smith")))
               "Dr. John Smith" eq_refl).
    reflexivity.
  - rewrite (proj2 (proj2 (is_valid_name_spec (VStr "John123 Smith")))
               "John123 Smith" eq_refl).
    reflexivity.
  - apply (proj1 (proj2 (is_valid_name_spec (VInt 7)))); [reflexivity|].
    intros s H. discriminate H.
Defined.

(** ** The repair on a text without a colon *)

Lemma mem_char_lstrip c p s :
  mem_char c s = false -> mem_char c (lstrip_by p s) = false.
Proof.
  induction s as [|a s IH]; [reflexivity|].
  cbn [lstrip_by]. destruct (p a); [|auto].
  cbn [mem_char]. intros H. apply orb_false_iff in H as [_ H]. auto.
Qed.

Lemma mem_char_rstrip c p s :
  mem_char c s = false -> mem_char c (rstrip_by p s) = false.
Proof.
  induction s as [|a s IH]; [reflexivity|].
  cbn [mem_char rstrip_by]. intros H. apply orb_false_iff in H as [Ha H].
  specialize (IH H). destruct (rstrip_by p s) as [|b r].
  - destruct (p a); [reflexivity|]. cbn. now rewrite Ha.
  - cbn [mem_char]. cbn [mem_char] in IH. now rewrite Ha, IH.
Qed.

Lemma mem_char_app c s t : mem_char c (s ++ t) = mem_char c s || mem_char c t.
Proof.
  induction s as [|a s IH]; [reflexivity|].
  cbn [append mem_char]. now rewrite IH, orb_assoc.
Qed.

(** A pattern that starts with a character has no match in a text without
    that character. *)
Lemma no_match_without_first c r s p pv :
  mem_char c s = false ->
  no_match_from (RSeq (RClass (is_char c)) r) p pv s.
Proof.
  intros Hc pre' suf' ->. rewrite mem_char_app in Hc.
  apply orb_false_iff in Hc as [_ Hc].
  unfold match_here. cbn [m]. destruct suf' as [|a suf']; [reflexivity|].
  cbn [mem_char] in Hc. apply orb_false_iff in Hc as [Ha _].
  unfold is_char. rewrite Ascii.eqb_sym, Ha. reflexivity.
Qed.

(** X8: on a text without a colon the repair rewrites nothing: it returns
    the text trimmed of surrounding whitespace and of its trailing double
    quotes. *)
Theorem fix_malformed_json_no_colon (json_str : string) :
  mem_char ":" json_str = false ->
  fix_malformed_json json_str = rstrip_by (is_char dquote) (strip json_str).
Proof.
  intros Hc. unfold fix_malformed_json.
  assert (Ht : mem_char ":" (rstrip_by (is_char dquote) (strip json_str)) = false).
  { apply mem_char_rstrip. unfold strip. now apply mem_char_rstrip, mem_char_lstrip. }
  unfold sub, bare_word_pattern, bare_date_pattern. cbn [seq].
  rewrite (sub_from_no_match _ _ _ _ _ (no_match_without_first ":" _ _ 0 None Ht)).
  apply sub_from_no_match. now apply no_match_without_first.
Qed.

Lemma fix_malformed_json_no_colon_witness :
  fix_malformed_json ("  not json at all" ++ String dquote "  ") = "not json at all".
Proof.
  rewrite fix_malformed_json_no_colon; reflexivity.
Defined.

(** ** Phone numbers in running text *)

Ltac ten_digits v L D :=
  do 10 (destruct v as [|? v]; [discriminate L|]);
  destruct v; [clear L | discriminate L];
  cbn [all_chars] in D;
  repeat match type of D with
         | _ && _ = true => let D' := fresh "D" in apply andb_true_iff in D as [D' D]
         end;
  clear D; digit_facts.

(** Ten digits between two places without a word character are a match of
    the phone pattern where they start. *)
Lemma phone_pattern_inside pre d suf p :
  String.length d = 10 -> all_chars is_digit d = true ->
  word_before (last_char None pre) = false -> word_after suf = false ->
  match_here phone_pattern p (last_char None pre) (d ++ suf) = Some (p + 10, []).
Proof.
  intros L D Hpre Hsuf. ten_digits d L D.
  unfold match_here, phone_pattern, times. cbn [seq m append].
  rewrite Hpre. run_matcher. reflexivity.
Qed.

(** X9: a run of exactly ten digits that no word character touches, on
    either side, makes [detect_pii_in_raw_string] answer true wherever it
    stands in the text. *)
Theorem raw_detects_embedded_phone (pre d suf : string) :
  String.length d = 10 -> all_chars is_digit d = true ->
  word_before (last_char None pre) = false -> word_after suf = false ->
  detect_pii_in_raw_string (pre ++ d ++ suf) = true.
Proof.
  intros L D Hpre Hsuf.
  assert (Hs : search phone_pattern (pre ++ d ++ suf) = true).
  { apply search_found. exists pre, (d ++ suf), (String.length pre + 10), [].
    split; [reflexivity|]. now apply phone_pattern_inside. }
  unfold detect_pii_in_raw_string. now rewrite Hs.
Qed.

Lemma raw_detects_embedded_phone_witness :
  detect_pii_in_raw_string "{phone: 9876543210, broken" = true.
Proof.
  apply (raw_detects_embedded_phone "{phone: " "9876543210" ", broken");
    reflexivity.
Defined.

(** ** Values that start with a phone number *)

Lemma last_char_nonempty s pv pv' :
  s <> "" -> last_char pv s = last_char pv' s.
Proof. destruct s; [contradiction | reflexivity]. Qed.

(** X10: a value that starts with ten digits followed by a character that is
    not a word character (a payment handle [9876543210@ybl], say) is taken
    for a phone number in every field: it passes the standalone test, and
    its mask keeps its first two and its last two characters, whatever they
    are, with [X] for all the others. *)
Theorem phone_prefix_masked (field d rest : string) (z : ascii) :
  String.length d = 10 -> all_chars is_digit d = true ->
  word_after rest = false ->
  last_char None rest = Some z -> is_space z = false ->
  is_standalone_pii field (VStr (d ++ rest)) = true
  /\ mask_value field (VStr (d ++ rest))
     = take 2 d ++ replicate (6 + String.length rest) "X" ++ last_n 2 (d ++ rest).
Proof.
  intros L D Hafter Hlast Hz.
  assert (Hne : rest <> "") by (intros ->; discriminate Hlast).
  assert (Hm : matches phone_pattern (d ++ rest) = true).
  { pose proof (phone_pattern_inside "" d rest 0 L D eq_refl Hafter) as H.
    cbn [last_char] in H. unfold matches, re_match. now rewrite H. }
  assert (Hlen : String.length (d ++ rest) = 10 + String.length rest)
    by (now rewrite length_app, L).
  assert (Htake : take 2 (d ++ rest) = take 2 d).
  { do 2 (destruct d as [|? d]; [discriminate L|]). reflexivity. }
  assert (Hs : strip (d ++ rest) = d ++ rest).
  { clear Hm Hlen Htake. ten_digits d L D. unfold strip.
    cbn [append lstrip_by]. use_char_facts.
    apply (rstrip_by_last _ _ None z); [discriminate | | exact Hz].
    cbn [last_char]. now rewrite (last_char_nonempty rest _ None Hne). }
  split.
  - unfold is_standalone_pii. cbn [py_str]. rewrite Hs, Hm, Hlen.
    destruct (d ++ rest) eqn:Hdr; [cbn in Hlen; lia|].
    rewrite truthy_nonempty. cbn [negb orb Nat.add Nat.ltb Nat.leb].
    now rewrite orb_true_r.
  - unfold mask_value. cbn [py_str]. rewrite Hs, Hm, Hlen, Htake, orb_true_r.
    destruct (Nat.eqb_spec (10 + String.length rest) 10) as [He | _].
    + destruct rest; [contradiction | cbn in He; lia].
    + replace (10 + String.length rest - 4) with (6 + String.length rest) by lia.
      reflexivity.
Qed.

Lemma phone_prefix_masked_witness :
  mask_value "upi_id" (VStr "9876543210@ybl") = "98XXXXXXXXXXbl".
Proof.
  apply (proj2 (phone_prefix_masked "upi_id" "9876543210" "@ybl" "l"%char
                  eq_refl eq_refl eq_refl eq_refl eq_refl)).
Defined.

(** ** Masks of names and email addresses *)

Lemma all_chars_replicate p n c : p c = true -> all_chars p (replicate n c) = true.
Proof. intros Hc. induction n as [|n IH]; cbn; [reflexivity | now rewrite Hc, IH]. Qed.

Lemma split_ws_single w :
  w <> "" -> all_chars (fun c => negb (is_space c)) w = true -> split_ws w = [w].
Proof.
  induction w as [|a w IH]; [contradiction|]. intros _ H.
  cbn [all_chars] in H. apply andb_true_iff in H as [Ha Hw].
  apply negb_true_iff in Ha. rewrite (split_ws_cons a w Ha).
  destruct w as [|b w]; [reflexivity|].
  rewrite IH by (discriminate || exact Hw).
  cbn [all_chars] in Hw. apply andb_true_iff in Hw as [Hb _].
  apply negb_true_iff in Hb. now rewrite Hb.
Qed.

Lemma split_ws_word_then w t :
  w <> "" -> all_chars (fun c => negb (is_space c)) w = true ->
  split_ws (w ++ String " " t) = w :: split_ws t.
Proof.
  induction w as [|a w IH]; [contradiction|]. intros _ H.
  cbn [all_chars] in H. apply andb_true_iff in H as [Ha Hw].
  apply negb_true_iff in Ha. cbn [append]. rewrite (split_ws_cons a _ Ha).
  destruct w as [|b w]; [reflexivity|].
  cbn [append]. cbn [append] in IH. rewrite IH by (discriminate || exact Hw).
  cbn [all_chars] in Hw. apply andb_true_iff in Hw as [Hb _].
  apply negb_true_iff in Hb. now rewrite Hb.
Qed.

(** Joining words with single spaces and splitting again gives the words. *)
Lemma split_ws_join ws :
  Forall (fun w => w <> "" /\ all_chars (fun c => negb (is_space c)) w = true) ws ->
  split_ws (join " " ws) = ws.
Proof.
  unfold join. induction 1 as [|w ws [Hne Hns] Hws IH]; [reflexivity|].
  cbn [String.concat]. destruct ws as [|w' ws]; [now apply split_ws_single|].
  change (w ++ " " ++ String.concat " " (w' :: ws))
    with (w ++ String " " (String.concat " " (w' :: ws))).
  rewrite split_ws_word_then by assumption. now rewrite IH.
Qed.

(** What [mask_word] makes of a word of [split]. *)
Lemma mask_word_facts w :
  w <> "" -> all_chars (fun c => negb (is_space c)) w = true ->
  String.length (mask_word w) = String.length w
  /\ all_chars (is_char "X") (drop 1 (mask_word w)) = true
  /\ (1 < String.length w -> take 1 (mask_word w) = take 1 w)
  /\ (String.length w = 1 -> mask_word w = "X")
  /\ mask_word w <> ""
  /\ all_chars (fun c => negb (is_space c)) (mask_word w) = true.
Proof.
  destruct w as [|a w]; [contradiction|]. intros _ H.
  cbn [all_chars] in H. apply andb_true_iff in H as [Ha _].
  unfold mask_word. cbn [String.length].
  destruct w as [|b w].
  - cbn. repeat split; auto; try lia. discriminate.
  - cbn [Nat.ltb Nat.leb String.length take append Nat.sub drop].
    rewrite ?Nat.sub_0_r. cbn [replicate String.length all_chars].
    rewrite length_replicate. rewrite Ha.
    rewrite (all_chars_replicate (is_char "X") _ "X" eq_refl).
    rewrite (all_chars_replicate (fun c => negb (is_space c)) _ "X" eq_refl).
    repeat split; auto; try lia; try discriminate.
Qed.

(** X11: under a name field, a value that does not start with a phone
    number is masked word by word: the mask has the words of the value, in
    their order and joined by single spaces, each with its length, with its
    first character kept when it has two characters or more, and with [X]
    everywhere else. *)
Theorem name_mask_spec (field s : string) :
  field_in field name_fields = true ->
  matches phone_pattern (strip s) = false ->
  mask_value field (VStr s) = join " " (map mask_word (split_ws s))
  /\ split_ws (mask_value field (VStr s)) = map mask_word (split_ws s)
  /\ Forall (fun w =>
               String.length (mask_word w) = String.length w
               /\ all_chars (is_char "X") (drop 1 (mask_word w)) = true
               /\ (1 < String.length w -> take 1 (mask_word w) = take 1 w)
               /\ (String.length w = 1 -> mask_word w = "X"))
            (split_ws s).
Proof.
  intros Hf Hp.
  assert (Hmask : mask_value field (VStr s) = join " " (map mask_word (split_ws s))).
  { unfold mask_value. cbn [py_str]. rewrite Hp, split_ws_strip.
    change (field_in field ["name"; "first_name"; "last_name"])
      with (field_in field name_fields). rewrite Hf.
    unfold field_in, name_fields in Hf. cbn [existsb] in Hf.
    destruct (String.eqb_spec field "phone") as [-> | _]; [discriminate Hf|].
    destruct (String.eqb_spec field "aadhar") as [-> | _]; [discriminate Hf|].
    reflexivity. }
  pose proof (split_ws_words s) as Hwords.
  split; [exact Hmask|]. split.
  - rewrite Hmask. apply split_ws_join. apply Forall_map.
    eapply Forall_impl; [|exact Hwords]. intros w [Hne Hns].
    destruct (mask_word_facts w Hne Hns) as (_ & _ & _ & _ & H1 & H2). auto.
  - eapply Forall_impl; [|exact Hwords]. intros w [Hne Hns].
    destruct (mask_word_facts w Hne Hns) as (H1 & H2 & H3 & H4 & _). auto.
Qed.

Lemma name_mask_spec_witness :
  mask_value "name" (VStr "  Asha   K Rao ") = "AXXX X RXX".
Proof.
  rewrite (proj1 (name_mask_spec "name" "  Asha   K Rao " eq_refl eq_refl)).
  reflexivity.
Defined.

Lemma split_first_at c u d :
  mem_char c u = false -> split_first c (u ++ String c d) = (u, d).
Proof.
  induction u as [|a u IH]; cbn [append split_first mem_char].
  - intros _. now rewrite Ascii.eqb_refl.
  - intros H. apply orb_false_iff in H as [Ha Hu]. now rewrite Ha, IH.
Qed.

(** X12: under the field [email], a value whose trimmed text has an [@] and
    does not start with a phone number keeps everything after its first [@]
    and the first character of what is before it, the other characters of
    that part becoming [X]; a part of one character or none becomes a single
    [X]. *)
Theorem email_mask_spec (s u d : string) :
  strip s = u ++ "@" ++ d -> mem_char "@" u = false ->
  matches phone_pattern (strip s) = false ->
  mask_value "email" (VStr s)
  = (if 1 <? String.length u
     then take 1 u ++ replicate (String.length u - 1) "X"
     else "X") ++ "@" ++ d.
Proof.
  intros Hs Hu Hp. unfold mask_value. cbn [py_str]. rewrite Hp, Hs.
  change (("email" =? "phone")%string) with false.
  change (("email" =? "aadhar")%string) with false.
  change (field_in "email" ["name"; "first_name"; "last_name"]) with false.
  change (("email" =? "email")%string) with true. cbn [orb].
  rewrite mem_char_app. cbn [append mem_char]. rewrite Ascii.eqb_refl.
  cbn [orb]. rewrite orb_true_r.
  change (u ++ String "@" d) with (u ++ String "@" d).
  rewrite split_first_at by exact Hu. reflexivity.
Qed.

Lemma email_mask_spec_witness :
  mask_value "email" (VStr " asha.rao+shop@example.co.in ")
  = "aXXXXXXXXXXXX@example.co.in".
Proof.
  apply (email_mask_spec " asha.rao+shop@example.co.in " "asha.rao+shop"
           "example.co.in"); reflexivity.
Defined.

(** ** The mapping, field by field *)

Lemma for_items_app {V S : Type} (body : S -> string -> V -> result S) d1 d2 :
  forall st,
    for_items body st (d1 ++ d2)%list
    = (st' <- for_items body st d1 ;; for_items body st' d2).
Proof.
  induction d1 as [|[f v] d1 IH]; intros st; cbn [for_items app bind]; [reflexivity|].
  destruct (body st f v) as [st1 | e]; cbn [bind]; [apply IH | reflexivity].
Qed.

Lemma nodup_keys_unique {V : Type} (d : Dict.dict V) f (v v' : V) :
  NoDup (Dict.keys d) -> In (f, v) d -> In (f, v') d -> v = v'.
Proof.
  intros Hnd H1 H2. pose proof (get_of_in f v d Hnd H1) as G1.
  pose proof (get_of_in f v' d Hnd H2) as G2. congruence.
Qed.

Lemma standalone_fold_skips (field : string) (d : record) : forall st,
  (forall v, In (field, v) d -> is_standalone_pii field v = false) ->
  Dict.get field (snd (fold_left (fun st fv => standalone_step st (fst fv) (snd fv))
                                 d st))
  = Dict.get field (snd st).
Proof.
  induction d as [|[f v] d IH]; intros st Hno; cbn [fold_left]; [reflexivity|].
  rewrite IH by (intros v' H; apply Hno; now right).
  unfold standalone_step. cbn [fst snd].
  destruct (is_standalone_pii f v) eqn:Hp; [|reflexivity]. cbn [snd].
  apply get_set_other. intros ->.
  rewrite (Hno v (or_introl eq_refl)) in Hp. discriminate.
Qed.

Lemma combinatorial_mask_step_other pf f0 v0 pf1 field :
  combinatorial_mask_step pf f0 v0 = Ok pf1 -> f0 <> field ->
  Dict.get field pf1 = Dict.get field pf.
Proof.
  intros Hstep Hne. unfold combinatorial_mask_step in Hstep.
  destruct (field_in f0 combinatorial_fields && truthy v0 && negb (Dict.mem f0 pf));
    [|now injection Hstep as <-].
  destruct (name_check f0 v0) as [[|] | e]; cbn [bind] in Hstep; [| |discriminate].
  - injection Hstep as <-. now apply get_set_other.
  - repeat match type of Hstep with
           | (if ?b then _ else _) = _ => destruct b
           end; injection Hstep as <-; auto using get_set_other.
Qed.

Lemma combinatorial_mask_loop_other (d : record) field : forall pf pf',
  for_items combinatorial_mask_step pf d = Ok pf' ->
  ~ In field (Dict.keys d) -> Dict.get field pf' = Dict.get field pf.
Proof.
  induction d as [|[f v] d IH]; intros pf pf'; cbn [for_items].
  - intros H _. now injection H as <-.
  - destruct (combinatorial_mask_step pf f v) as [pf1 | e] eqn:Hstep; cbn [bind];
      [|discriminate].
    intros Hloop Hnot. cbn in Hnot.
    rewrite (IH _ _ Hloop) by tauto.
    apply (combinatorial_mask_step_other _ _ _ _ _ Hstep). tauto.
Qed.

(** The step of the second loop at a field without a mask. *)
Lemma combinatorial_mask_step_here pf f v pf1 :
  Dict.get f pf = None ->
  combinatorial_mask_step pf f v = Ok pf1 ->
  Dict.get f pf1
  = if second_pass_masks f v
    then Some (if field_in f ["device_id"; "ip_address"]
               then redacted_token else mask_value f v)
    else None.
Proof.
  intros Hnone. unfold combinatorial_mask_step, second_pass_masks.
  rewrite (proj2 (mem_false_get f pf) Hnone). cbn [negb]. rewrite andb_true_r.
  destruct (truthy v); cbn [andb];
    [|rewrite andb_false_r; intros H; injection H as <-; exact Hnone].
  rewrite andb_true_r.
  unfold name_check, field_in, combinatorial_fields. cbn [existsb].
  destruct (String.eqb_spec f "name") as [-> | Hn]; cbn [orb].
  { change (("name" =? "first_name")%string) with false.
    change (("name" =? "last_name")%string) with false.
    change (("name" =? "email")%string) with false.
    change (("name" =? "address")%string) with false.
    change (("name" =? "device_id")%string) with false.
    change (("name" =? "ip_address")%string) with false.
    cbn [orb andb]. destruct (is_valid_name v) as [[|] | e]; cbn [bind orb];
      [| |discriminate]; intros H; injection H as <-;
      [apply get_set_same | exact Hnone]. }
  cbn [bind].
  destruct (String.eqb_spec f "first_name") as [-> | Hf]; cbn [orb andb].
  { destruct (2 <=? _); cbn [orb]; intros H; injection H as <-;
      [apply get_set_same | exact Hnone]. }
  destruct (String.eqb_spec f "last_name") as [-> | Hl]; cbn [orb andb].
  { destruct (2 <=? _); cbn [orb]; intros H; injection H as <-;
      [apply get_set_same | exact Hnone]. }
  destruct (String.eqb_spec f "email") as [-> | He]; cbn [orb andb].
  { destruct (is_valid_email v); cbn [orb]; intros H; injection H as <-;
      [apply get_set_same | exact Hnone]. }
  destruct (String.eqb_spec f "address") as [-> | Ha]; cbn [orb andb].
  { destruct (is_valid_address v); cbn [orb]; intros H; injection H as <-;
      [apply get_set_same | exact Hnone]. }
  destruct (String.eqb_spec f "device_id") as [-> | Hd]; cbn [orb andb].
  { intros H; injection H as <-; apply get_set_same. }
  destruct (String.eqb_spec f "ip_address") as [-> | Hi]; cbn [orb andb].
  { intros H; injection H as <-; apply get_set_same. }
  intros H; injection H as <-; exact Hnone.
Qed.

(** X13: on a record with distinct field names, the masked-field mapping is
    decided field by field: a field that passes the standalone test has the
    mask of its value; any other field has a mask only when the combinatorial
    test is true and the second loop accepts it, the generic token for
    [device_id] and [ip_address] and the mask of its value otherwise. *)
Theorem masked_field_rule (data : record) has_pii pii_fields combinatorial :
  NoDup (Dict.keys data) ->
  detect_pii_in_record data = Ok (has_pii, pii_fields) ->
  has_combinatorial_pii data = Ok combinatorial ->
  forall field v,
    In (field, v) data ->
    Dict.get field pii_fields = field_mask combinatorial field v.
Proof.
  intros Hnd Hd Hc field v Hin. unfold detect_pii_in_record in Hd.
  rewrite Hc in Hd. cbn [bind] in Hd.
  assert (H1 : Dict.get field (snd (standalone_pass data))
               = if is_standalone_pii field v then Some (mask_value field v)
                 else None).
  { unfold standalone_pass. destruct (is_standalone_pii field v) eqn:Hp.
    - now apply standalone_fold_mask.
    - rewrite standalone_fold_skips; [reflexivity|].
      intros v' Hin'. now rewrite (nodup_keys_unique data field v' v Hnd Hin' Hin). }
  destruct (standalone_pass data) as [hs pf1]. cbn [snd] in H1.
  unfold field_mask. destruct combinatorial; cbn [andb].
  - destruct (for_items combinatorial_mask_step pf1 data) as [pf' | e] eqn:Hloop;
      cbn [bind] in Hd; [|discriminate].
    injection Hd as _ <-.
    destruct (in_split _ _ Hin) as (d1 & d2 & Hsplit). subst data.
    assert (Hnot : ~ In field (Dict.keys d1) /\ ~ In field (Dict.keys d2)).
    { unfold Dict.keys in Hnd. rewrite map_app in Hnd. cbn [map fst] in Hnd.
      apply NoDup_remove_2 in Hnd. rewrite in_app_iff in Hnd.
      unfold Dict.keys. tauto. }
    destruct Hnot as [Hn1 Hn2].
    rewrite for_items_app in Hloop.
    destruct (for_items combinatorial_mask_step pf1 d1) as [pfa | e] eqn:Ha;
      cbn [bind] in Hloop; [|discriminate].
    cbn [for_items] in Hloop.
    destruct (combinatorial_mask_step pfa field v) as [pfb | e] eqn:Hb;
      cbn [bind] in Hloop; [|discriminate].
    rewrite (combinatorial_mask_loop_other d2 field _ _ Hloop Hn2).
    pose proof (combinatorial_mask_loop_other d1 field _ _ Ha Hn1) as Hga.
    rewrite H1 in Hga.
    destruct (is_standalone_pii field v).
    + destruct (combinatorial_mask_step_keeps _ _ _ _ Hb) as [_ Hkeep].
      now apply Hkeep.
    + exact (combinatorial_mask_step_here pfa field v pfb Hga Hb).
  - cbn [bind] in Hd. injection Hd as _ <-. exact H1.
Qed.

Lemma masked_field_rule_witness :
  Dict.get "device_id"
    [("email", "jXXX@example.com"); ("phone", "98XXXXXX10");
     ("name", "JXXX SXXXX"); ("device_id", "[REDACTED]")]
  = Some "[REDACTED]".
Proof.
  rewrite (masked_field_rule sample_record true
             [("email", "jXXX@example.com"); ("phone", "98XXXXXX10");
              ("name", "JXXX SXXXX"); ("device_id", "[REDACTED]")] true
             ltac:(repeat constructor; cbn; intuition discriminate)
             ltac:(vm_compute; reflexivity) ltac:(vm_compute; reflexivity)
             "device_id" (VStr "dev-001")
             ltac:(cbn; auto)).
  vm_compute. reflexivity.
Defined.

(** ** Email test *)

Lemma rep_reaches_ex c k u lo p pv rest g :
  all_chars c u = true -> lo <= String.length u ->
  (exists x, k (p + String.length u) (last_char pv u) rest g = Some x) ->
  exists y, rep c lo None k p pv (u ++ rest) g = Some y.
Proof. intros Hu Hlo [x Hx]. exact (rep_reaches c k u lo p pv rest g x Hu Hlo Hx). Qed.

(** X14: [is_valid_email] looks at the text as it is, without trimming: it
    rejects every text that does not start with a word character (a leading
    blank is enough), and it accepts every address [local@domain.tld] whose
    local part is made of letters, digits and [._%+-] and starts with a
    letter, digit or underscore, whose domain is made of letters, digits,
    dots and hyphens, and whose last label has two or more letters. *)
Theorem is_valid_email_shape :
  (forall s, word_after s = false -> is_valid_email (VStr s) = false)
  /\ (forall a local domain tld,
        is_word a = true -> all_chars email_local (String a local) = true ->
        domain <> "" -> all_chars email_domain domain = true ->
        2 <= String.length tld -> all_chars is_alpha tld = true ->
        is_valid_email (VStr (String a local ++ "@" ++ domain ++ "." ++ tld)) = true).
Proof.
  split.
  - intros s Hs. unfold is_valid_email, matches, re_match, match_here, email_pattern.
    cbn [py_str seq m word_before]. now rewrite Hs.
  - intros a local domain tld Ha Hlocal Hne Hdomain Hlen Htld.
    assert (Htld' : all_chars email_tld tld = true).
    { revert Htld. apply all_chars_impl. intros c Hc. unfold email_tld.
      unfold is_alpha in Hc. apply orb_true_iff in Hc as [-> | ->];
        [reflexivity | now rewrite !orb_true_r]. }
    assert (Hlast : forall pv, word_before (last_char pv tld) = true).
    { clear Htld'.
      assert (Hgen : forall t pv, t <> "" -> all_chars is_alpha t = true ->
                                  word_before (last_char pv t) = true).
      { induction t as [|b t IH]; intros pv Hn Hall; [contradiction|].
        cbn [all_chars] in Hall. apply andb_true_iff in Hall as [Hb Hall].
        cbn [last_char]. destruct t as [|b' t].
        - cbn. unfold is_word. now rewrite Hb.
        - apply IH; [discriminate | exact Hall]. }
      intros pv. apply Hgen; [|exact Htld].
      destruct tld; [cbn in *; lia | discriminate]. }
    unfold is_valid_email, matches, re_match, match_here, email_pattern.
    cbn [py_str seq m plus at_least word_before].
    replace (word_after (String a local ++ "@" ++ domain ++ "." ++ tld)) with true
      by (symmetry; exact Ha).
    cbn [xorb].
    match goal with
    | |- match ?r with Some _ => true | None => false end = true =>
        assert (Hex : exists y, r = Some y); [|destruct Hex as [y ->]; reflexivity]
    end.
    apply rep_reaches_ex; [exact Hlocal | cbn; lia |].
    cbn [append]. change (is_char "@" "@") with true. cbv iota.
    apply rep_reaches_ex; [exact Hdomain | destruct domain; [contradiction | cbn; lia] |].
    cbn [append]. change (is_char "." ".") with true. cbv iota.
    rewrite <- (append_empty_r tld).
    apply rep_reaches_ex; [exact Htld' | exact Hlen |].
    rewrite Hlast. cbn [word_after xorb]. unfold accept. eauto.
Qed.

Lemma is_valid_email_shape_witness :
  is_valid_email (VStr "asha.rao+shop@mail.example.in") = true
  /\ is_valid_email (VStr " asha@example.in") = false.
Proof.
  split.
  - apply (proj2 is_valid_email_shape "a"%char "sha.rao+shop" "mail.example" "in");
      (reflexivity || discriminate || (cbn; lia)).
  - apply (proj1 is_valid_email_shape). reflexivity.
Defined.

(** ** The field [aadhar] and passport numbers *)

(** X15: under the field [aadhar], a value that does not start with a phone
    number is judged by its digits alone: when its trimmed text has exactly
    12 digits, whatever stands between them, the mask is the first two
    digits, eight [X] and the last two digits; otherwise it is the generic
    token. *)
Theorem aadhar_field_mask (v : value) :
  matches phone_pattern (strip (py_str v)) = false ->
  mask_value "aadhar" v
  = let digits := filter_chars is_digit (strip (py_str v)) in
    if String.length digits =? 12
    then take 2 digits ++ "XXXXXXXX" ++ last_n 2 digits
    else redacted_token.
Proof.
  intros Hp. unfold mask_value. rewrite Hp.
  change (("aadhar" =? "phone")%string) with false.
  change (("aadhar" =? "aadhar")%string) with true. cbn [orb].
  unfold sub. now rewrite sub_non_digit.
Qed.

Lemma aadhar_field_mask_witness :
  mask_value "aadhar" (VStr "UID 1234/5678/9012") = "12XXXXXXXX12"
  /\ mask_value "aadhar" (VStr "1234 5678") = "[REDACTED]".
Proof.
  split; rewrite aadhar_field_mask; reflexivity.
Defined.

Ltac seven_digits v L D :=
  do 7 (destruct v as [|? v]; [discriminate L|]);
  destruct v; [clear L | discriminate L];
  cbn [all_chars] in D;
  repeat match type of D with
         | _ && _ = true => let D' := fresh "D" in apply andb_true_iff in D as [D' D]
         end;
  clear D; digit_facts.

Lemma upper_facts c :
  is_upper c = true -> is_word c = true /\ is_space c = false /\ is_digit c = false.
Proof. each_char c. Qed.

(** X16: an uppercase letter followed by exactly seven digits is a passport
    number in every field: it passes the standalone test, and in a field that
    is none of [phone], [aadhar], [name], [first_name], [last_name] and
    [email] its mask is the generic token. *)
Theorem passport_value_any_field (field : string) (a : ascii) (d : string) :
  is_upper a = true -> String.length d = 7 -> all_chars is_digit d = true ->
  is_standalone_pii field (VStr (String a d)) = true
  /\ (field_in field ["phone"; "aadhar"; "name"; "first_name"; "last_name"; "email"]
      = false ->
      mask_value field (VStr (String a d)) = redacted_token).
Proof.
  intros Ha L D. destruct (upper_facts a Ha) as (Hw & Hs & Hd).
  seven_digits d L D.
  match goal with
  | |- context [VStr ?t] =>
      assert (Hstrip : strip t = t)
        by (unfold strip; cbn [lstrip_by]; rewrite Hs;
            eapply (rstrip_by_last _ _ None); [discriminate | reflexivity | assumption]);
      assert (Hphone : matches phone_pattern t = false)
        by (unfold matches, re_match, match_here, phone_pattern, times;
            cbn [seq m]; run_matcher; reflexivity);
      assert (Hpass : matches passport_pattern t = true)
        by (unfold matches, re_match, match_here, passport_pattern, times;
            cbn [seq m]; run_matcher; reflexivity)
  end.
  split.
  - unfold is_standalone_pii. cbn [py_str]. rewrite Hstrip, Hphone, Hpass.
    rewrite truthy_nonempty. cbn [String.length Nat.ltb Nat.leb negb orb].
    rewrite !orb_false_r, orb_true_r.
    destruct (field =? "phone")%string; [reflexivity|].
    destruct ((field =? "aadhar")%string || _); reflexivity.
  - intros Hf. unfold field_in in Hf. cbn [existsb] in Hf.
    repeat (apply orb_false_iff in Hf as [?E Hf]).
    unfold mask_value. cbn [py_str]. rewrite Hstrip, Hphone.
    unfold field_in. cbn [existsb]. rewrite E, E0, E1, E2, E3, E4.
    reflexivity.
Qed.

Lemma passport_value_any_field_witness :
  is_standalone_pii "travel_doc" (VStr "P1234567") = true
  /\ mask_value "travel_doc" (VStr "P1234567") = "[REDACTED]".
Proof.
  destruct (passport_value_any_field "travel_doc" "P"%char "1234567"
              eq_refl eq_refl eq_refl) as [Hs Hm].
  split; [exact Hs | apply Hm; reflexivity].
Defined.

(** ** The repair on a bare word value *)

(** A greedy repetition over a whole run of the class takes the run when
    its continuation accepts there. *)
Lemma rep_longest c k u :
  forall lo p pv rest g x,
    all_chars c u = true -> lo <= String.length u ->
    match rest with String b _ => c b = false | "" => True end ->
    k (p + String.length u) (last_char pv u) rest g = Some x ->
    rep c lo None k p pv (u ++ rest) g = Some x.
Proof.
  induction u as [|a u IH]; intros lo p pv rest g x Hall Hlo Hrest Hk.
  - cbn in Hlo, Hk. rewrite Nat.add_0_r in Hk.
    assert (lo = 0) by lia. subst lo. cbn [append].
    destruct rest as [|b rest]; cbn [rep rep_stop]; [exact Hk|].
    rewrite Hrest. cbn [hi_open andb]. exact Hk.
  - cbn in Hall. apply andb_true_iff in Hall as [Ha Hall].
    cbn [append rep]. rewrite Ha. cbn [hi_open andb dec_hi].
    rewrite (IH (pred lo) (S p) (Some a) rest g x Hall); [reflexivity | | exact Hrest |].
    + cbn in Hlo. lia.
    + cbn [String.length last_char] in Hk.
      now replace (S p + String.length u) with (p + S (String.length u)) by lia.
Qed.

Lemma take_app_exact u r : take (String.length u) (u ++ r) = u.
Proof. induction u as [|a u IH]; cbn; [now destruct r | now rewrite IH]. Qed.

Lemma drop_app_exact u r : drop (String.length u) (u ++ r) = r.
Proof. induction u as [|a u IH]; cbn; [reflexivity | exact IH]. Qed.

Lemma last_char_app s t pv : last_char pv (s ++ t) = last_char (last_char pv s) t.
Proof. revert pv. induction s as [|a s IH]; intros pv; cbn; [reflexivity | apply IH]. Qed.

(** [sub] copies a prefix without the first character of the pattern. *)
Lemma sub_from_prefix c r2 t pre : forall rest p pv,
  mem_char c pre = false ->
  sub_from (RSeq (RClass (is_char c)) r2) t p pv (pre ++ rest) 0
  = pre ++ sub_from (RSeq (RClass (is_char c)) r2) t
             (p + String.length pre) (last_char pv pre) rest 0.
Proof.
  induction pre as [|a pre IH]; intros rest p pv Hc.
  - cbn. now rewrite Nat.add_0_r.
  - cbn [mem_char] in Hc. apply orb_false_iff in Hc as [Ha Hc].
    cbn [append sub_from]. unfold match_here. cbn [m].
    change (is_char c a) with (Ascii.eqb c a). rewrite Ascii.eqb_sym, Ha.
    rewrite (IH rest (S p) (Some a) Hc). cbn [String.length last_char].
    now replace (S p + String.length pre) with (p + S (String.length pre)) by lia.
Qed.

(** [sub] passes over the characters of a match. *)
Lemma sub_from_skip r t u : forall rest p pv,
  sub_from r t p pv (u ++ rest) (String.length u)
  = sub_from r t (p + String.length u) (last_char pv u) rest 0.
Proof.
  induction u as [|a u IH]; intros rest p pv.
  - cbn [append String.length last_char]. now rewrite Nat.add_0_r.
  - cbn [append String.length sub_from last_char]. rewrite IH.
    now replace (S p + String.length u) with (p + S (String.length u)) by lia.
Qed.

Lemma ident_start_facts c :
  ident_start c = true -> is_space c = false /\ ident_char c = true.
Proof. each_char c. Qed.

Lemma ident_char_no_colon c : ident_char c = true -> Ascii.eqb c ":" = false.
Proof. each_char c. Qed.

Lemma ident_no_colon w : all_chars ident_char w = true -> mem_char ":" w = false.
Proof.
  induction w as [|a w IH]; [reflexivity|]. cbn [all_chars mem_char].
  intros H. apply andb_true_iff in H as [Ha Hw].
  now rewrite (ident_char_no_colon a Ha), (IH Hw).
Qed.

(** The first pattern of the repair on a colon, a blank, an identifier and a
    closing brace: the match takes them all, group 1 is the identifier and
    group 2 the brace. *)
Lemma bare_word_match w0 w' p pv :
  ident_start w0 = true -> all_chars ident_char w' = true ->
  exists g,
    match_here bare_word_pattern p pv (": " ++ String w0 w' ++ "}")
    = Some (p + (String.length w' + 4), g)
    /\ group_text 1 g p (": " ++ String w0 w' ++ "}") = String w0 w'
    /\ group_text 2 g p (": " ++ String w0 w' ++ "}") = "}".
Proof.
  intros H0 Hw. destruct (ident_start_facts w0 H0) as [Hs0 Hi0].
  eexists. split.
  - unfold match_here, bare_word_pattern, star. cbn [seq m append].
    change (is_char ":" ":") with true. cbv iota.
    change (String " " (String w0 (w' ++ "}"))) with (" " ++ String w0 (w' ++ "}")).
    apply rep_longest; [reflexivity | cbn; lia | exact Hs0 |].
    cbn [m String.length last_char]. rewrite H0.
    apply rep_longest; [exact Hw | lia | reflexivity |].
    change ("}") with ("" ++ "}") at 1.
    apply rep_longest; [reflexivity | cbn; lia | reflexivity |].
    cbn [m String.length last_char]. change (comma_or_brace "}") with true.
    cbv iota. unfold accept. f_equal. f_equal. lia.
  - cbn [group_text group_span Nat.eqb].
    replace (S (S p + 1) + String.length w' - (S p + 1)) with (String.length (String w0 w'))
      by (cbn [String.length]; lia).
    replace (S p + 1 - p) with 2 by lia.
    replace (S (S (S p + 1) + String.length w' + 0) - (S (S p + 1) + String.length w' + 0))
      with 1 by lia.
    replace (S (S p + 1) + String.length w' + 0 - p)
      with (String.length (": " ++ String w0 w'))
      by (cbn [append String.length]; lia).
    split.
    + cbn [append drop]. apply (take_app_exact (String w0 w') "}").
    + change (": " ++ String w0 w' ++ "}") with ((": " ++ String w0 w') ++ "}").
      now rewrite drop_app_exact.
Qed.

Lemma sub_from_prefix_of r c r2 t pre rest p pv :
  r = RSeq (RClass (is_char c)) r2 -> mem_char c pre = false ->
  sub_from r t p pv (pre ++ rest) 0
  = pre ++ sub_from r t (p + String.length pre) (last_char pv pre) rest 0.
Proof. intros ->. apply sub_from_prefix. Qed.

Lemma sub_from_clean r c r2 t s p pv :
  r = RSeq (RClass (is_char c)) r2 -> mem_char c s = false ->
  sub_from r t p pv s 0 = s.
Proof.
  intros -> Hc. apply sub_from_no_match. now apply no_match_without_first.
Qed.

(** The second pattern of the repair has no match on a colon followed by a
    blank and a double quote. *)
Lemma bare_date_no_match p pv rest :
  match_here bare_date_pattern p pv (": " ++ String dquote rest) = None.
Proof.
  unfold match_here, bare_date_pattern, star, times. cbn [seq m append].
  change (is_char ":" ":") with true. cbv iota.
  cbn [rep hi_open andb dec_hi pred rep_stop].
  change (is_space " ") with true. change (is_space dquote) with false.
  cbv iota. cbn [m]. rewrite !rep_exact.
  cbn [run_length]. change (is_digit dquote) with false.
  change (is_digit " ") with false. reflexivity.
Qed.

(** X17: on an object with one member whose value is a bare identifier, the
    repair puts the value in double quotes and leaves the key as it came,
    quoted or bare: [{k: w}] becomes [{k: "w"}]. *)
Theorem repair_quotes_bare_word (k : string) (w0 : ascii) (w' : string) :
  mem_char ":" k = false ->
  ident_start w0 = true -> all_chars ident_char w' = true ->
  fix_malformed_json ("{" ++ k ++ ": " ++ String w0 w' ++ "}")
  = "{" ++ k ++ ": " ++ String dquote (String w0 w' ++ String dquote "}").
Proof.
  intros Hk H0 Hw.
  destruct (ident_start_facts w0 H0) as [_ Hi0].
  assert (Hwc : mem_char ":" (String w0 w') = false).
  { apply ident_no_colon. cbn [all_chars]. now rewrite Hi0, Hw. }
  assert (Hpre : mem_char ":" ("{" ++ k) = false) by (cbn; exact Hk).
  unfold fix_malformed_json.
  assert (Hlast : forall pv,
            last_char pv ("{" ++ k ++ ": " ++ String w0 w' ++ "}") = Some "}"%char).
  { intros pv. change ("{" ++ k ++ ": " ++ String w0 w' ++ "}")
      with (("{" ++ k) ++ (": " ++ String w0 w') ++ "}").
    now rewrite !last_char_app. }
  assert (Hstrip : strip ("{" ++ k ++ ": " ++ String w0 w' ++ "}")
                   = "{" ++ k ++ ": " ++ String w0 w' ++ "}").
  { unfold strip. cbn [append lstrip_by]. change (is_space "{") with false. cbv iota.
    apply (rstrip_by_last _ _ None "}"); [discriminate | apply Hlast | reflexivity]. }
  rewrite Hstrip.
  rewrite (rstrip_by_last _ _ None "}"); [| discriminate | apply Hlast | reflexivity].
  (* first substitution *)
  assert (Hfirst : sub bare_word_pattern quoted_value
                     ("{" ++ k ++ ": " ++ String w0 w' ++ "}")
                   = ("{" ++ k) ++ ": " ++ String dquote (String w0 w' ++ String dquote "}")).
  { unfold sub.
    change ("{" ++ k ++ ": " ++ String w0 w' ++ "}")
      with (("{" ++ k) ++ (": " ++ String w0 w' ++ "}")).
    rewrite (sub_from_prefix_of bare_word_pattern ":" _ _ _ _ _ _ eq_refl Hpre).
    f_equal.
    destruct (bare_word_match w0 w' (0 + String.length ("{" ++ k))
                (last_char None ("{" ++ k)) H0 Hw) as (g & Hm & G1 & G2).
    set (P := 0 + String.length ("{" ++ k)) in *.
    set (PV := last_char None ("{" ++ k)) in *.
    change (": " ++ String w0 w' ++ "}")
      with (String ":" (" " ++ String w0 w' ++ "}")) at 1.
    cbn [sub_from].
    change (String ":" (" " ++ String w0 w' ++ "}"))
      with (": " ++ String w0 w' ++ "}").
    rewrite Hm. unfold quoted_value. cbn [expand]. rewrite G1, G2.
    destruct (Nat.eqb_spec (P + (String.length w' + 4)) P) as [He | _]; [lia|].
    replace (P + (String.length w' + 4) - P - 1)
      with (String.length (" " ++ String w0 w' ++ "}"))
      by (rewrite length_app; cbn [String.length append];
          rewrite length_app; cbn [String.length]; lia).
    rewrite <- (append_empty_r (" " ++ String w0 w' ++ "}")) at 1.
    rewrite sub_from_skip. cbn [sub_from]. unfold match_here at 1.
    unfold bare_word_pattern at 1. cbn [seq m].
    cbn [append]. now rewrite append_empty_r. }
  rewrite Hfirst.
  (* second substitution *)
  unfold sub.
  rewrite (sub_from_prefix_of bare_date_pattern ":" _ _ _ _ _ _ eq_refl Hpre).
  change ("{" ++ k ++ ": " ++ String dquote (String w0 w' ++ String dquote "}"))
    with (("{" ++ k) ++ ": " ++ String dquote (String w0 w' ++ String dquote "}")).
  f_equal.
  change (": " ++ String dquote (String w0 w' ++ String dquote "}"))
    with (String ":" (" " ++ String dquote (String w0 w' ++ String dquote "}"))) at 1.
  cbn [sub_from].
  change (String ":" (" " ++ String dquote (String w0 w' ++ String dquote "}")))
    with (": " ++ String dquote (String w0 w' ++ String dquote "}")).
  rewrite bare_date_no_match.
  cbn [append]. f_equal.
  apply (sub_from_clean bare_date_pattern ":" _ _ _ _ _ eq_refl).
  change (mem_char ":" (String " " (String dquote "") ++ String w0 w'
                        ++ String dquote "}") = false).
  rewrite !mem_char_app, Hwc. reflexivity.
Qed.

Lemma repair_quotes_bare_word_witness :
  fix_malformed_json ("{" ++ String dquote "status" ++ String dquote ": active}")
  = "{" ++ String dquote "status" ++ String dquote ": "
    ++ String dquote "active" ++ String dquote "}".
Proof.
  apply (repair_quotes_bare_word (String dquote "status" ++ String dquote "")
           "a"%char "ctive"); reflexivity.
Defined.

(** ** The flag *)

Lemma standalone_fold_fst (d : record) : forall st,
  fst (fold_left (fun st fv => standalone_step st (fst fv) (snd fv)) d st)
  = fst st || existsb (fun fv => is_standalone_pii (fst fv) (snd fv)) d.
Proof.
  induction d as [|[f v] d IH]; intros st; cbn [fold_left existsb].
  - now rewrite orb_false_r.
  - rewrite IH. unfold standalone_step. cbn [fst snd].
    destruct (is_standalone_pii f v); cbn [fst orb]; [now rewrite orb_true_r | reflexivity].
Qed.

(** X18: the flag of [detect_pii_in_record] is true exactly when some field
    of the record passes the standalone test or the combinatorial test is
    true. *)
Theorem flag_rule (data : record) has_pii pii_fields combinatorial :
  detect_pii_in_record data = Ok (has_pii, pii_fields) ->
  has_combinatorial_pii data = Ok combinatorial ->
  has_pii
  = existsb (fun fv => is_standalone_pii (fst fv) (snd fv)) data || combinatorial.
Proof.
  intros Hd Hc. unfold detect_pii_in_record in Hd. rewrite Hc in Hd.
  pose proof (standalone_fold_fst data (false, [])) as Hf.
  fold (standalone_pass data) in Hf. cbn [fst orb] in Hf.
  destruct (standalone_pass data) as [hs pf]. cbn [fst] in Hf. cbn [bind] in Hd.
  destruct (if combinatorial then for_items combinatorial_mask_step pf data else Ok pf)
    as [pf' | e]; cbn [bind] in Hd; [|discriminate].
  injection Hd as <- _. now rewrite Hf.
Qed.

Lemma flag_rule_witness :
  true
  = existsb (fun fv => is_standalone_pii (fst fv) (snd fv)) order_record || false.
Proof.
  apply (flag_rule order_record true [("phone", "98XXXXXX10")] false);
    vm_compute; reflexivity.
Defined.
